(** * Liquid-glass component: saved designs, export template and emitted shader

    A shallow embedding of [src/components/SavedDesignsManager.tsx]:

    - [GLSL]     the GLSL ES 1.00 expression language used by the emitted
                 fragment shader, over the real numbers, with an explicit
                 "result not defined" outcome;
    - [Shader]   the fragment shader text emitted by
                 [generateComponentCode] (shape distance functions,
                 [saturate], [sampleBlurred], [main]);
    - [Scenes]   concrete uniform values and fragments;
    - [Json]     the JSON values read back from [localStorage], with a
                 reference reader standing for [JSON.parse];
    - [Manager]  the React component: its state, its effects and
                 handlers, and the text written by
                 [generateComponentCode];
    - [ReadBack] a reader for the exported [params] literal;
    - [Samples]  concrete designs and stored texts;
    - [ShaderProps], [ManagerProps], [ExportProps]  the properties. *)

From Stdlib Require Import Reals Lra Lia ZArith QArith List String Ascii DecimalString
  DecimalPos DecimalZ.
From stdpp Require Import base option list gmap strings.
Import ListNotations.

(* ===================================================================== *)
(** ** GLSL values and built-ins *)
(* ===================================================================== *)

Module GLSL.
Local Open Scope R_scope.

(** Floats are idealised as real numbers.  GLSL ES 1.00 (section 4.5.1)
    leaves the result of a division by zero unspecified, and the built-ins
    [atan], [pow] and [normalize] are "undefined" outside their domain; on
    IEEE hardware these are the operations that produce Inf or NaN.  Every
    such operation returns [None] here, and [None] propagates through the
    rest of the computation exactly as NaN does. *)

Record vec2 := Vec2 { vx : R; vy : R }.
Record vec3 := Vec3 { cr : R; cg : R; cb : R }.
Record vec4 := Vec4 { rgb : vec3; alpha : R }.

Definition vec2s (s : R) : vec2 := Vec2 s s.
Definition vec3s (s : R) : vec3 := Vec3 s s s.

Definition add2 (a b : vec2) : vec2 := Vec2 (vx a + vx b) (vy a + vy b).
Definition sub2 (a b : vec2) : vec2 := Vec2 (vx a - vx b) (vy a - vy b).
Definition mul2 (a b : vec2) : vec2 := Vec2 (vx a * vx b) (vy a * vy b).
Definition scale2 (a : vec2) (s : R) : vec2 := Vec2 (vx a * s) (vy a * s).
Definition adds2 (a : vec2) (s : R) : vec2 := Vec2 (vx a + s) (vy a + s).
Definition abs2 (a : vec2) : vec2 := Vec2 (Rabs (vx a)) (Rabs (vy a)).
Definition maxs2 (a : vec2) (s : R) : vec2 := Vec2 (Rmax (vx a) s) (Rmax (vy a) s).
Definition dot2 (a b : vec2) : R := vx a * vx b + vy a * vy b.
Definition length2 (a : vec2) : R := sqrt (vx a * vx a + vy a * vy a).

Definition add3 (a b : vec3) : vec3 := Vec3 (cr a + cr b) (cg a + cg b) (cb a + cb b).
Definition mul3 (a b : vec3) : vec3 := Vec3 (cr a * cr b) (cg a * cg b) (cb a * cb b).
Definition scale3 (a : vec3) (s : R) : vec3 := Vec3 (cr a * s) (cg a * s) (cb a * s).
Definition dot3 (a b : vec3) : R := cr a * cr b + cg a * cg b + cb a * cb b.

(** [mix(x, y, a) = x*(1-a) + y*a]. *)
Definition mix (x y a : R) : R := x * (1 - a) + y * a.
Definition mix3 (x y : vec3) (a : R) : vec3 :=
  Vec3 (mix (cr x) (cr y) a) (mix (cg x) (cg y) a) (mix (cb x) (cb y) a).

(** [clamp(x, lo, hi) = min(max(x, lo), hi)]. *)
Definition clamp (x lo hi : R) : R := Rmin (Rmax x lo) hi.

Definition sign (x : R) : R :=
  if Rlt_dec 0 x then 1 else if Rlt_dec x 0 then -1 else 0.

Definition floor (x : R) : R := IZR (Zfloor x).

(** [int(x)] drops the fractional part (rounds toward zero). *)
Definition int (x : R) : Z :=
  if Rlt_dec x 0 then (- Zfloor (- x))%Z else Zfloor x.

(** Scalar division; the quotient by zero is not defined. *)
Definition fdiv (a b : R) : option R :=
  if Req_dec_T b 0 then None else Some (a / b).

(** Component-wise [vec2 / vec2]. *)
Definition div2 (a b : vec2) : option vec2 :=
  x ← fdiv (vx a) (vx b); y ← fdiv (vy a) (vy b); Some (Vec2 x y).

(** [vec3 / float]. *)
Definition divs3 (a : vec3) (s : R) : option vec3 :=
  r ← fdiv (cr a) s; g ← fdiv (cg a) s; b ← fdiv (cb a) s; Some (Vec3 r g b).

(** [normalize(v) = v / length(v)]; not defined for the zero vector. *)
Definition normalize (v : vec2) : option vec2 :=
  x ← fdiv (vx v) (length2 v); y ← fdiv (vy v) (length2 v); Some (Vec2 x y).

(** [pow(x, y)]: "results are undefined if x < 0, or if x = 0 and y <= 0". *)
Definition pow (x y : R) : option R :=
  if Rlt_dec x 0 then None
  else if Req_dec_T x 0 then (if Rle_dec y 0 then None else Some 0)
  else Some (Rpower x y).

(** Two-argument [atan(y, x)], the angle of the point [(x, y)] in
    [(-PI, PI]]; "results are undefined if x and y are both 0". *)
Definition atan2 (y x : R) : option R :=
  if Rlt_dec 0 x then Some (atan (y / x))
  else if Rlt_dec x 0 then
    (if Rle_dec 0 y then Some (atan (y / x) + PI) else Some (atan (y / x) - PI))
  else if Rlt_dec 0 y then Some (PI / 2)
  else if Rlt_dec y 0 then Some (- (PI / 2))
  else None.

End GLSL.

(* ===================================================================== *)
(** ** The emitted fragment shader *)
(* ===================================================================== *)

Module Shader.
Import GLSL.
Local Open Scope R_scope.

(** The uniforms declared by the shader; [u_texture] is the bound
    background image, sampled by [texture2D]. *)
Record Uniforms := {
  u_time : R;
  u_resolution : vec2;
  u_mouse : vec2;
  u_texture : vec2 -> vec4;
  u_width : R;
  u_height : R;
  u_tint : vec3;
  u_saturation : R;
  u_distortion : R;
  u_blur : R;
  u_cornerRadius : R;
  u_chromaticAberration : R;
  u_shape : R;
  u_donutThickness : R;
  u_starPoints : R;
  u_starInnerRadius : R;
  u_shadowIntensity : R;
  u_shadowOffset : vec2;
  u_shadowBlur : R;
  u_glassMode : R
}.

(** [#define PI 3.141592653589793]: the binary64 literal nearest to pi,
    read as the real it stands for, like every other float here. *)
Definition PI_macro : R := PI.

(** *** Shape distance functions *)

Definition sdRoundedRect (pos halfSize : vec2) (radius : R) : R :=
  let q := adds2 (sub2 (abs2 pos) halfSize) radius in
  Rmin (Rmax (vx q) (vy q)) 0 + length2 (maxs2 q 0) - radius.

Definition sdCircle (pos : vec2) (radius : R) : R :=
  length2 pos - radius.

Definition sdStar (pos : vec2) (outerRadius innerRadius : R) (points : Z)
  : option R :=
  angle ← atan2 (vy pos) (vx pos);
  let radius := length2 pos in
  segmentAngle ← fdiv (2 * PI_macro) (IZR points);
  q ← fdiv angle segmentAngle;
  let segment := floor (q + 0.5) in
  let segmentStart := segment * segmentAngle in
  let localAngle := angle - segmentStart in
  let halfSegment := segmentAngle * 0.5 in
  t ← fdiv (Rabs localAngle) halfSegment;
  let targetRadius := mix outerRadius innerRadius t in
  Some (radius - targetRadius).

Definition sdHexagon (pos : vec2) (size : R) : R :=
  let kx := -0.866025404 in
  let ky := 0.5 in
  let kz := 0.577350269 in
  let kxy := Vec2 kx ky in
  let pos := abs2 pos in
  let pos := sub2 pos (scale2 kxy (2 * Rmin (dot2 kxy pos) 0)) in
  let pos := sub2 pos (Vec2 (clamp (vx pos) (- kz * size) (kz * size)) size) in
  length2 pos * sign (vy pos).

Definition sdDonut (pos : vec2) (outerRadius thickness : R) : R :=
  let innerRadius := outerRadius * (1 - thickness) in
  let d := length2 pos in
  Rmax (d - outerRadius) (innerRadius - d).

Section Program.
Variable U : Uniforms.

Definition getShapeSDF (pos : vec2) : option R :=
  if Rlt_dec (u_shape U) 0.5 then
    Some (sdRoundedRect pos (Vec2 (u_width U) (u_height U)) (u_cornerRadius U))
  else if Rlt_dec (u_shape U) 1.5 then
    Some (sdCircle pos (Rmin (u_width U) (u_height U)))
  else if Rlt_dec (u_shape U) 2.5 then
    let outerRadius := Rmin (u_width U) (u_height U) * 0.8 in
    let innerRadius := outerRadius * u_starInnerRadius U in
    sdStar pos outerRadius innerRadius (int (u_starPoints U))
  else if Rlt_dec (u_shape U) 3.5 then
    Some (sdHexagon pos (Rmin (u_width U) (u_height U) * 0.8))
  else
    Some (sdDonut pos (Rmin (u_width U) (u_height U) * 0.8) (u_donutThickness U)).

(** *** Colour adjustment *)

Definition saturate (color : vec3) (factor : R) : vec3 :=
  let gray := dot3 color (Vec3 0.299 0.587 0.114) in
  mix3 (vec3s gray) color factor.

(** *** Blur sampler *)

(** The loop counters [x] and [y] run from [-2.0] to [2.0] in steps of
    [1.0]; [for_each] runs a loop body over those values, threading the
    mutable locals and stopping at the first undefined result. *)
Definition loopRange : list R := [-2; -1; 0; 1; 2].

Fixpoint for_each {A : Type} (xs : list R) (body : R -> A -> option A) (a : A)
  : option A :=
  match xs with
  | [] => Some a
  | x :: xs' => a' ← body x a; for_each xs' body a'
  end.

(** Body of the inner loop of [sampleBlurred], on the locals
    [(color, total)]. *)
Definition blurTap (uv : vec2) (blurAmount x y : R) (acc : vec3 * R)
  : option (vec3 * R) :=
  let '(color, total) := acc in
  offset ← div2 (scale2 (Vec2 x y) blurAmount) (u_resolution U);
  e ← fdiv (- (x * x + y * y)) (2 * blurAmount * blurAmount);
  let weight := exp e in
  Some (add3 color (scale3 (rgb (u_texture U (add2 uv offset))) weight),
        total + weight).

Definition sampleBlurred (uv : vec2) (blurAmount : R) : option vec3 :=
  '(color, total) ←
    for_each loopRange
      (fun x acc => for_each loopRange (blurTap uv blurAmount x) acc)
      (vec3s 0, 0);
  divs3 color total.

(** *** The blocks of [main] *)

(** The finite-difference gradient of the distortion block. *)
Definition sdfGradient (centeredUV : vec2) : option vec2 :=
  xp ← getShapeSDF (add2 centeredUV (Vec2 2 0));
  xm ← getShapeSDF (sub2 centeredUV (Vec2 2 0));
  yp ← getShapeSDF (add2 centeredUV (Vec2 0 2));
  ym ← getShapeSDF (sub2 centeredUV (Vec2 0 2));
  Some (Vec2 (xp - xm) (yp - ym)).

(** The displacement [grad * offsetAmount] added to [distortedUV] inside
    [if (u_distortion > 0.0)].  [normalizedInside] is the local computed
    at the top of [main]; it is undefined when [u_height] is zero. *)
Definition displacement (centeredUV : vec2) (normalizedInside : option R)
  : option vec2 :=
  grad ← sdfGradient centeredUV;
  grad ← normalize grad;
  ni ← normalizedInside;
  p ← pow (Rabs ni) 12;
  let offsetAmount := p * -0.05 * u_distortion U in
  Some (scale2 grad offsetAmount).

(** The value of [distortedUV] when the "Distortion" block is left. *)
Definition distortedUV (v_texCoord centeredUV : vec2)
  (normalizedInside : option R) : option vec2 :=
  if Rlt_dec 0 (u_distortion U) then
    d ← displacement centeredUV normalizedInside;
    Some (add2 v_texCoord d)
  else Some v_texCoord.

(** "Blur and chromatic aberration". *)
Definition glassSample (distortedUV : vec2) : option vec3 :=
  glassColor ← sampleBlurred distortedUV (u_blur U * 3);
  if Rlt_dec 0 (u_chromaticAberration U) then
    let center := vec2s 0.5 in
    direction ← normalize (sub2 distortedUV center);
    let dist := length2 (sub2 distortedUV center) in
    let aberration := u_chromaticAberration U * dist * 0.01 in
    cR ← sampleBlurred (add2 distortedUV (scale2 (scale2 direction aberration) 1.2))
           (u_blur U * 3);
    cB ← sampleBlurred (sub2 distortedUV (scale2 (scale2 direction aberration) 0.8))
           (u_blur U * 3);
    Some (Vec3 (cr cR) (cg glassColor) (cb cB))
  else Some glassColor.

(** "Shadow": the value of [bgColor] when the block is left. *)
Definition shadowed (centeredUV : vec2) (bgColor : vec3) : option vec3 :=
  if Rlt_dec 0 (u_shadowIntensity U) then
    let shadowPos := sub2 centeredUV (u_shadowOffset U) in
    shadowSdf ← getShapeSDF shadowPos;
    q ← fdiv shadowSdf (u_shadowBlur U);
    let shadowMask := 1 - clamp q 0 1 in
    let shadowMask := shadowMask * u_shadowIntensity U in
    Some (mix3 bgColor (scale3 bgColor (1 - shadowMask)) shadowMask)
  else Some bgColor.

(** The glass mask of a pixel, [boxMask = 1.0 - clamp(sdf, 0.0, 1.0)]. *)
Definition boxMaskOf (sdf : R) : R := 1 - clamp sdf 0 1.

(** [main]: the value written to [gl_FragColor] for the fragment whose
    interpolated texture coordinate is [v_texCoord]. *)
Definition main (v_texCoord : vec2) : option vec4 :=
  let fragCoord := mul2 v_texCoord (u_resolution U) in
  let centeredUV := sub2 fragCoord (u_mouse U) in
  sdf ← getShapeSDF centeredUV;
  let bgColor := rgb (u_texture U v_texCoord) in
  let normalizedInside := n ← fdiv sdf (u_height U); Some (n + 1) in
  let boxMask := boxMaskOf sdf in
  if Rlt_dec 0 boxMask then
    duv ← distortedUV v_texCoord centeredUV normalizedInside;
    glassColor ← glassSample duv;
    let glassColor := saturate glassColor (u_saturation U) in
    let glassColor := mul3 glassColor (u_tint U) in
    ni ← normalizedInside;
    edgeBlendFactor ← pow ni 12;
    let highlightAmount := mix 0 0.3 (clamp edgeBlendFactor 0 1) in
    let glassColor := add3 glassColor (vec3s highlightAmount) in
    bgColor ← shadowed centeredUV bgColor;
    Some (Vec4 (mix3 bgColor glassColor boxMask) 1)
  else
    Some (Vec4 bgColor 1).

End Program.

(** The shape variants of the specification's ShapeField. *)
Inductive Variant := Rectangle | Circle | Star | Hexagon | Donut.

(** Modelled from the spec: the shape evaluation of the live session,
    whose renderer is not in this source file.  ShapeField as the
    specification words it, one formula per variant: the rounded rectangle on the half-extents [(width, height)] with
    [cornerRadius]; the circle of radius [min(width, height)]; the star
    with outer radius [0.8 * min(width, height)], inner radius
    [outer * starInnerRadius] and [starPoints] segments; the hexagon scaled
    by [0.8 * min(width, height)]; the donut with outer radius
    [0.8 * min(width, height)] and thickness [donutThickness]. *)
Definition shapeFormula (v : Variant) (U : Uniforms) (pos : vec2) : option R :=
  match v with
  | Rectangle =>
      Some (sdRoundedRect pos (Vec2 (u_width U) (u_height U)) (u_cornerRadius U))
  | Circle => Some (sdCircle pos (Rmin (u_width U) (u_height U)))
  | Star =>
      sdStar pos (Rmin (u_width U) (u_height U) * 0.8)
        (Rmin (u_width U) (u_height U) * 0.8 * u_starInnerRadius U)
        (int (u_starPoints U))
  | Hexagon => Some (sdHexagon pos (Rmin (u_width U) (u_height U) * 0.8))
  | Donut =>
      Some (sdDonut pos (Rmin (u_width U) (u_height U) * 0.8) (u_donutThickness U))
  end.

(** The names of the variants in the editor. *)
Definition variantName (v : Variant) : string :=
  match v with
  | Rectangle => "rectangle"
  | Circle => "circle"
  | Star => "star"
  | Hexagon => "hexagon"
  | Donut => "donut"
  end.

End Shader.

(* ===================================================================== *)
(** ** Concrete scenes *)
(* ===================================================================== *)

Module Scenes.
Import GLSL Shader.
Local Open Scope R_scope.

(** A uniformly white background image. *)
Definition whiteTexture (uv : vec2) : vec4 := Vec4 (Vec3 1 1 1) 1.

(** An 800x600 canvas with the pointer at (400.5, 300.5), the centre of
    a pixel, unit tint and saturation, no corner rounding and no chromatic
    aberration; the shape index, the half-extents, the distortion, the
    blur and the shadow are the arguments. *)
Definition scene (tex : vec2 -> vec4) (shape width height : R)
    (distortion blur shadowIntensity : R) (shadowOffset : vec2) (shadowBlur : R)
  : Uniforms :=
  {| u_time := 0;
     u_resolution := Vec2 800 600;
     u_mouse := Vec2 400.5 300.5;
     u_texture := tex;
     u_width := width;
     u_height := height;
     u_tint := Vec3 1 1 1;
     u_saturation := 1;
     u_distortion := distortion;
     u_blur := blur;
     u_cornerRadius := 0;
     u_chromaticAberration := 0;
     u_shape := shape;
     u_donutThickness := 0.3;
     u_starPoints := 5;
     u_starInnerRadius := 0.5;
     u_shadowIntensity := shadowIntensity;
     u_shadowOffset := shadowOffset;
     u_shadowBlur := shadowBlur;
     u_glassMode := 0 |}.

(** The fragment under the pointer: the pixel whose centre is
    (400.5, 300.5). *)
Definition centreFragment : vec2 := Vec2 (400.5 / 800) (300.5 / 600).

(** A 100 x 60 rectangle with distortion 0 and blur 0 (the
    specification's scenario A). *)
Definition sharpRectangle (tex : vec2 -> vec4) : Uniforms :=
  scene tex 0 100 60 0 0 0 (Vec2 0 0) 10.

(** A circle of radius 50 ([width = 50], [height = 100]) with distortion
    0.5, blur 1 and no shadow. *)
Definition distortedCircle (tex : vec2 -> vec4) : Uniforms :=
  scene tex 1 50 100 0.5 1 0 (Vec2 0 0) 10.

(** A circle of radius 50 casting a shadow of intensity 0.5, offset 20
    pixels to the right, blur 10; [shadowFragment] is the pixel 60 to the
    right of the pointer: outside the glass, inside the shadow. *)
Definition shadowedCircle (tex : vec2 -> vec4) : Uniforms :=
  scene tex 1 50 50 0 1 0.5 (Vec2 20 0) 10.

Definition shadowFragment : vec2 := Vec2 (460.5 / 800) (300.5 / 600).

(** The point at distance [r] from the pointer in direction [theta]. *)
Definition polar (r theta : R) : vec2 := Vec2 (r * cos theta) (r * sin theta).

(** The star's angular segment for five points, and the directions of
    its [k]-th tip and of the midpoint that follows it. *)
Definition segmentAngle5 : R := 2 * PI / 5.
Definition tipAngle (k : Z) : R := IZR k * segmentAngle5.
Definition midAngle (k : Z) : R := (IZR k + 1 / 2) * segmentAngle5.

(** A five-pointed star with inner ratio 0.5 and half-extents 100 x 60. *)
Definition star5 : Uniforms :=
  scene whiteTexture 2 100 60 0 1 0 (Vec2 0 0) 10.

End Scenes.

(* ===================================================================== *)
(** ** JSON values and a reference reader *)
(* ===================================================================== *)

Module Json.
Local Open Scope Z_scope.
#[local] Set Warnings "-register-all".

(** What [JSON.parse] can return.  Numbers carry their exact decimal
    value; object members are kept in source order, a repeated key
    overwriting the earlier member. *)
Inductive value :=
| JNull
| JBool (b : bool)
| JNumber (q : Q)
| JString (s : string)
| JArray (items : list value)
| JObject (members : list (string * value)).

Definition dquote : ascii := "034"%char.
Definition backslash : ascii := "\"%char.

(** Source texts below are written with apostrophes where JSON has double
    quotes; [jsonText] puts the double quotes in. *)
Definition jsonText (s : string) : string :=
  string_of_list_ascii
    (map (fun c => if Ascii.eqb c "'"%char then dquote else c) (list_ascii_of_string s)).

Definition code (c : ascii) : Z := Z.of_N (N_of_ascii c).

Definition is_ws (c : ascii) : bool :=
  (code c =? 32) || (code c =? 9) || (code c =? 10) || (code c =? 13).

Definition is_digit (c : ascii) : bool := (48 <=? code c) && (code c <=? 57).

Fixpoint skip_ws (s : list ascii) : list ascii :=
  match s with
  | c :: s' => if is_ws c then skip_ws s' else s
  | [] => []
  end.

(** Reads a run of decimal digits: its value, its length, the rest. *)
Fixpoint digits (s : list ascii) (acc : Z) (n : Z) : Z * Z * list ascii :=
  match s with
  | c :: s' =>
      if is_digit c then digits s' (acc * 10 + (code c - 48)) (n + 1)
      else (acc, n, s)
  | [] => (acc, n, s)
  end.

Definition decimal (mantissa exponent : Z) : Q :=
  if 0 <=? exponent then inject_Z (mantissa * 10 ^ exponent)
  else Qred (Qmake mantissa (Z.to_pos (10 ^ (- exponent)))).

(** A number token: optional minus, integer part without a leading
    zero, optional fraction, optional exponent. *)
Definition parse_number (s : list ascii) : option (Q * list ascii) :=
  let '(negative, s) :=
    match s with
    | "-"%char :: s' => (true, s')
    | _ => (false, s)
    end in
  '(int_part, s) ←
    match s with
    | "0"%char :: s' => Some (0, s')
    | c :: _ =>
        if is_digit c then let '(i, _, s') := digits s 0 0 in Some (i, s')
        else None
    | [] => None
    end;
  '(mantissa, scale, s) ←
    match s with
    | "."%char :: s' =>
        let '(f, nf, s'') := digits s' 0 0 in
        if nf =? 0 then None else Some (int_part * 10 ^ nf + f, nf, s'')
    | _ => Some (int_part, 0, s)
    end;
  '(exponent, s) ←
    match s with
    | c :: s' =>
        if Ascii.eqb c "e"%char || Ascii.eqb c "E"%char then
          let '(eneg, s') :=
            match s' with
            | "-"%char :: t => (true, t)
            | "+"%char :: t => (false, t)
            | _ => (false, s')
            end in
          let '(e, ne, s'') := digits s' 0 0 in
          if ne =? 0 then None else Some (if eneg then - e else e, s'')
        else Some (0, s)
    | [] => Some (0, s)
    end;
  let mantissa := if negative then - mantissa else mantissa in
  Some (decimal mantissa (exponent - scale), s).

Definition hex_val (c : ascii) : option Z :=
  let n := code c in
  if (48 <=? n) && (n <=? 57) then Some (n - 48)
  else if (65 <=? n) && (n <=? 70) then Some (n - 55)
  else if (97 <=? n) && (n <=? 102) then Some (n - 87)
  else None.

Definition byte (n : Z) : ascii := ascii_of_N (Z.to_N n).

(** A [\uXXXX] code unit as UTF-8 bytes. *)
Definition utf8 (n : Z) : list ascii :=
  if n <? 128 then [byte n]
  else if n <? 2048 then [byte (192 + n / 64); byte (128 + n mod 64)]
  else [byte (224 + n / 4096); byte (128 + (n / 64) mod 64); byte (128 + n mod 64)].

(** The characters of a string literal after its opening quote; [acc]
    holds the characters read so far, last first. *)
Fixpoint parse_string (s : list ascii) (acc : list ascii)
  : option (string * list ascii) :=
  match s with
  | [] => None
  | c :: s' =>
      if Ascii.eqb c dquote then Some (string_of_list_ascii (rev acc), s')
      else if Ascii.eqb c backslash then
        match s' with
        | "u"%char :: h1 :: h2 :: h3 :: h4 :: s'' =>
            match hex_val h1, hex_val h2, hex_val h3, hex_val h4 with
            | Some a, Some b, Some c, Some d =>
                parse_string s''
                  (rev (utf8 (((a * 16 + b) * 16 + c) * 16 + d)) ++ acc)
            | _, _, _, _ => None
            end
        | e :: s'' =>
            if Ascii.eqb e dquote then parse_string s'' (dquote :: acc)
            else if Ascii.eqb e backslash then parse_string s'' (backslash :: acc)
            else if Ascii.eqb e "/"%char then parse_string s'' ("/"%char :: acc)
            else if Ascii.eqb e "b"%char then parse_string s'' (byte 8 :: acc)
            else if Ascii.eqb e "f"%char then parse_string s'' (byte 12 :: acc)
            else if Ascii.eqb e "n"%char then parse_string s'' (byte 10 :: acc)
            else if Ascii.eqb e "r"%char then parse_string s'' (byte 13 :: acc)
            else if Ascii.eqb e "t"%char then parse_string s'' (byte 9 :: acc)
            else None
        | [] => None
        end
      else if code c <? 32 then None
      else parse_string s' (c :: acc)
  end.

(** [obj[k] = v] while the object is being built. *)
Fixpoint set_member (k : string) (v : value) (ms : list (string * value))
  : list (string * value) :=
  match ms with
  | [] => [(k, v)]
  | (k', v') :: ms' =>
      if String.eqb k' k then (k', v) :: ms' else (k', v') :: set_member k v ms'
  end.

(** Recursive descent; [fuel] bounds the number of nested calls. *)
Fixpoint parse_value (fuel : nat) (s : list ascii) : option (value * list ascii) :=
  match fuel with
  | O => None
  | S fuel =>
      match skip_ws s with
      | "n"%char :: "u"%char :: "l"%char :: "l"%char :: r => Some (JNull, r)
      | "t"%char :: "r"%char :: "u"%char :: "e"%char :: r => Some (JBool true, r)
      | "f"%char :: "a"%char :: "l"%char :: "s"%char :: "e"%char :: r =>
          Some (JBool false, r)
      | "["%char :: r =>
          match skip_ws r with
          | "]"%char :: r' => Some (JArray [], r')
          | _ => '(items, r') ← parse_elements fuel r []; Some (JArray items, r')
          end
      | "{"%char :: r =>
          match skip_ws r with
          | "}"%char :: r' => Some (JObject [], r')
          | _ => '(ms, r') ← parse_members fuel r []; Some (JObject ms, r')
          end
      | c :: r =>
          if Ascii.eqb c dquote then
            '(str, r') ← parse_string r []; Some (JString str, r')
          else
            '(q, r') ← parse_number (c :: r); Some (JNumber q, r')
      | [] => None
      end
  end
with parse_elements (fuel : nat) (s : list ascii) (acc : list value)
  : option (list value * list ascii) :=
  match fuel with
  | O => None
  | S fuel =>
      '(v, r) ← parse_value fuel s;
      match skip_ws r with
      | ","%char :: r' => parse_elements fuel r' (v :: acc)
      | "]"%char :: r' => Some (rev (v :: acc), r')
      | _ => None
      end
  end
with parse_members (fuel : nat) (s : list ascii) (acc : list (string * value))
  : option (list (string * value) * list ascii) :=
  match fuel with
  | O => None
  | S fuel =>
      match skip_ws s with
      | c :: r =>
          if Ascii.eqb c dquote then
            '(k, r) ← parse_string r [];
            match skip_ws r with
            | ":"%char :: r =>
                '(v, r) ← parse_value fuel r;
                match skip_ws r with
                | ","%char :: r' => parse_members fuel r' (set_member k v acc)
                | "}"%char :: r' => Some (set_member k v acc, r')
                | _ => None
                end
            | _ => None
            end
          else None
      | [] => None
      end
  end.

(** Reference model of [JSON.parse] on byte strings: [None] stands for the
    [SyntaxError] it throws. *)
Definition parse (text : string) : option value :=
  let s := list_ascii_of_string text in
  '(v, r) ← parse_value (2 * length s + 2) s;
  match skip_ws r with
  | [] => Some v
  | _ :: _ => None
  end.

(** *** The shape of a persisted design *)








End Json.

(* ===================================================================== *)
(** ** The SavedDesignsManager component *)
(* ===================================================================== *)

Module Manager.
Local Open Scope string_scope.
#[local] Set Implicit Arguments.

Definition STORAGE_KEY : string := "liquidGlass_savedDesigns".

Definition newline : ascii := "010"%char.
Definition nl : string := String newline EmptyString.
Definition dq : string := String Json.dquote EmptyString.

(** An integer in a template literal or under [.toString()]. *)
Definition Z_toString (z : Z) : string := NilZero.string_of_int (Z.to_int z).

(** [String.prototype.trim], on the ASCII white space and line
    terminators (tab, line feed, vertical tab, form feed, carriage
    return, space). *)
Definition isWhiteSpace (c : ascii) : bool :=
  let n := N_of_ascii c in ((9 <=? n) && (n <=? 13))%N || (n =? 32)%N.

Fixpoint trimStart (s : list ascii) : list ascii :=
  match s with
  | c :: s' => if isWhiteSpace c then trimStart s' else s
  | [] => []
  end.

Definition trim (s : string) : string :=
  string_of_list_ascii
    (rev (trimStart (rev (trimStart (list_ascii_of_string s))))).

(** [Array.prototype.indexOf] on an array of strings. *)
Fixpoint indexOfFrom (i : Z) (xs : list string) (x : string) : Z :=
  match xs with
  | [] => (-1)%Z
  | y :: ys => if String.eqb y x then i else indexOfFrom (i + 1)%Z ys x
  end.

Definition indexOf (xs : list string) (x : string) : Z := indexOfFrom 0 xs x.

(** What the component shows or logs. *)
Inductive Output :=
| ToastError (message : string)
| ToastSuccess (message : string)
| ConsoleError (message : string).

Section Component.

(** The JavaScript [number] type and its conversion to text in a template
    literal are kept abstract. *)
Variable number : Type.
Variable Number_toString : number -> string.

Record ShaderParams := {
  width : number;
  height : number;
  mouseX : number;
  mouseY : number;
  tintR : number;
  tintG : number;
  tintB : number;
  saturation : number;
  distortion : number;
  blur : number;
  text : string;
  iconSize : number;
  iconColorR : number;
  iconColorG : number;
  iconColorB : number;
  glassMode : string;
  shadowIntensity : number;
  shadowOffsetX : number;
  shadowOffsetY : number;
  shadowBlur : number;
  cornerRadius : number;
  chromaticAberration : number;
  shape : string;
  donutThickness : number;
  starPoints : number;
  starInnerRadius : number
}.

(** [createdAt] and [updatedAt] hold readings of [Date.now()]. *)
Record SavedDesign := {
  id : string;
  name : string;
  params : ShaderParams;
  backgroundUrl : string;
  createdAt : Z;
  updatedAt : Z
}.

Record Props := {
  currentParams : ShaderParams;
  currentBackgroundUrl : string
}.

(** The [useState] cells of the component, [localStorage], and the toasts
    and console messages emitted so far (oldest first). *)
Record State := {
  savedDesigns : list SavedDesign;
  isOpen : bool;
  isSaveDialogOpen : bool;
  isCodeDialogOpen : bool;
  designName : string;
  selectedDesign : option SavedDesign;
  generatedCode : string;
  localStorage : gmap string string;
  outputs : list Output
}.

Definition initialState (storage : gmap string string) : State :=
  {| savedDesigns := [];
     isOpen := false;
     isSaveDialogOpen := false;
     isCodeDialogOpen := false;
     designName := EmptyString;
     selectedDesign := None;
     generatedCode := EmptyString;
     localStorage := storage;
     outputs := [] |}.

(** *** Persistence effects *)

Variable JSON_stringify : list SavedDesign -> string.

(** "Save designs to localStorage whenever they change". *)
Definition persistEffect (st : State) : State :=
  if (0 <? length (savedDesigns st))%nat then
    {| savedDesigns := savedDesigns st;
       isOpen := isOpen st;
       isSaveDialogOpen := isSaveDialogOpen st;
       isCodeDialogOpen := isCodeDialogOpen st;
       designName := designName st;
       selectedDesign := selectedDesign st;
       generatedCode := generatedCode st;
       localStorage := <[STORAGE_KEY := JSON_stringify (savedDesigns st)]> (localStorage st);
       outputs := outputs st |}
  else st.

(** *** Handlers *)

(** [handleSaveDesign]; [t_id], [t_created] and [t_updated] are the three
    successive readings of [Date.now()]. *)
Definition handleSaveDesign (props : Props) (t_id t_created t_updated : Z)
    (st : State) : State :=
  if String.eqb (trim (designName st)) EmptyString then
    {| savedDesigns := savedDesigns st;
       isOpen := isOpen st;
       isSaveDialogOpen := isSaveDialogOpen st;
       isCodeDialogOpen := isCodeDialogOpen st;
       designName := designName st;
       selectedDesign := selectedDesign st;
       generatedCode := generatedCode st;
       localStorage := localStorage st;
       outputs := outputs st ++ [ToastError "Please enter a name for your design"] |}
  else
    let newDesign :=
      {| id := Z_toString t_id;
         name := trim (designName st);
         params := currentParams props;
         backgroundUrl := currentBackgroundUrl props;
         createdAt := t_created;
         updatedAt := t_updated |} in
    {| savedDesigns := newDesign :: savedDesigns st;
       isOpen := isOpen st;
       isSaveDialogOpen := false;
       isCodeDialogOpen := isCodeDialogOpen st;
       designName := EmptyString;
       selectedDesign := selectedDesign st;
       generatedCode := generatedCode st;
       localStorage := localStorage st;
       outputs := outputs st
         ++ [ToastSuccess ("Design " ++ dq ++ name newDesign ++ dq ++ " saved successfully")] |}.

(** [handleDeleteDesign]. *)
Definition handleDeleteDesign (target : string) (st : State) : State :=
  let design := List.find (fun d => String.eqb (id d) target) (savedDesigns st) in
  let kept := List.filter (fun d => negb (String.eqb (id d) target)) (savedDesigns st) in
  {| savedDesigns := kept;
     isOpen := isOpen st;
     isSaveDialogOpen := isSaveDialogOpen st;
     isCodeDialogOpen := isCodeDialogOpen st;
     designName := designName st;
     selectedDesign := selectedDesign st;
     generatedCode := generatedCode st;
     localStorage := <[STORAGE_KEY := JSON_stringify kept]> (localStorage st);
     outputs := outputs st
       ++ [ToastSuccess ("Design " ++ dq
                         ++ match design with Some d => name d | None => "undefined" end
                         ++ dq ++ " deleted")] |}.

(** *** The export template *)

Definition shapeNames : list string :=
  ["rectangle"; "circle"; "star"; "hexagon"; "donut"].

Definition shapeValue (p : ShaderParams) : Z := indexOf shapeNames (shape p).

(** The [params] object of the generated component (the lines from
    [const params = {] to [};]). *)
Definition paramsLiteral (p : ShaderParams) : string :=
  "  const params = {" ++ nl ++
  "    width: " ++ Number_toString (width p) ++ "," ++ nl ++
  "    height: " ++ Number_toString (height p) ++ "," ++ nl ++
  "    mouseX: " ++ Number_toString (mouseX p) ++ "," ++ nl ++
  "    mouseY: " ++ Number_toString (mouseY p) ++ "," ++ nl ++
  "    tintR: " ++ Number_toString (tintR p) ++ "," ++ nl ++
  "    tintG: " ++ Number_toString (tintG p) ++ "," ++ nl ++
  "    tintB: " ++ Number_toString (tintB p) ++ "," ++ nl ++
  "    saturation: " ++ Number_toString (saturation p) ++ "," ++ nl ++
  "    distortion: " ++ Number_toString (distortion p) ++ "," ++ nl ++
  "    blur: " ++ Number_toString (blur p) ++ "," ++ nl ++
  "    iconColorR: " ++ Number_toString (iconColorR p) ++ "," ++ nl ++
  "    iconColorG: " ++ Number_toString (iconColorG p) ++ "," ++ nl ++
  "    iconColorB: " ++ Number_toString (iconColorB p) ++ "," ++ nl ++
  "    glassMode: '" ++ glassMode p ++ "'," ++ nl ++
  "    shadowIntensity: " ++ Number_toString (shadowIntensity p) ++ "," ++ nl ++
  "    shadowOffsetX: " ++ Number_toString (shadowOffsetX p) ++ "," ++ nl ++
  "    shadowOffsetY: " ++ Number_toString (shadowOffsetY p) ++ "," ++ nl ++
  "    shadowBlur: " ++ Number_toString (shadowBlur p) ++ "," ++ nl ++
  "    cornerRadius: " ++ Number_toString (cornerRadius p) ++ "," ++ nl ++
  "    chromaticAberration: " ++ Number_toString (chromaticAberration p) ++ "," ++ nl ++
  "    shape: " ++ Z_toString (shapeValue p) ++ "," ++ nl ++
  "    donutThickness: " ++ Number_toString (donutThickness p) ++ "," ++ nl ++
  "    starPoints: " ++ Number_toString (starPoints p) ++ "," ++ nl ++
  "    starInnerRadius: " ++ Number_toString (starInnerRadius p) ++ nl ++
  "  };" ++ nl.

(** The stretches of the template that contain no interpolation: the
    imports and refs before the [params] object; the shader sources and
    WebGL set-up up to [image.src = ']; the render loop and the opening of
    the overlay up to [fontSize: Math.min(params.width, params.height) * ];
    the rest of the overlay's style and the closing usage notes. *)
Variable preamble : string.
Variable shadersAndSetup : string.
Variable renderLoopAndOverlay : string.
Variable overlayStyle : string.
Variable usageNotes : string.

Definition generateComponentCode (design : SavedDesign) : string :=
  let p := params design in
  "// Glass Effect Component - " ++ name design ++ nl ++
  preamble ++
  paramsLiteral p ++
  shadersAndSetup ++ backgroundUrl design ++
  renderLoopAndOverlay ++ Number_toString (iconSize p) ++
  overlayStyle ++ text p ++ nl ++
  "      </div>" ++ nl ++
  "    </div>" ++ nl ++
  "  );" ++ nl ++
  "}" ++ nl ++ nl ++
  "/*" ++ nl ++
  " * CONFIGURATION:" ++ nl ++
  " * Shape: " ++ shape p ++ nl ++
  " * Dimensions: " ++ Number_toString (width p) ++ "x"
    ++ Number_toString (height p) ++ "px" ++ nl ++
  " * Effects: Blur " ++ Number_toString (blur p)
    ++ ", Distortion " ++ Number_toString (distortion p)
    ++ ", Saturation " ++ Number_toString (saturation p) ++ nl ++
  " * Chromatic Aberration: " ++ Number_toString (chromaticAberration p) ++ nl ++
  " * Shadow: " ++ Number_toString (shadowIntensity p) ++ " @ ("
    ++ Number_toString (shadowOffsetX p) ++ ", "
    ++ Number_toString (shadowOffsetY p) ++ ")" ++ nl ++
  usageNotes.

(** [handleExportCode]. *)
Definition handleExportCode (design : SavedDesign) (st : State) : State :=
  {| savedDesigns := savedDesigns st;
     isOpen := isOpen st;
     isSaveDialogOpen := isSaveDialogOpen st;
     isCodeDialogOpen := true;
     designName := designName st;
     selectedDesign := Some design;
     generatedCode := generateComponentCode design;
     localStorage := localStorage st;
     outputs := outputs st |}.

End Component.

(** [withoutId target before after]: [after] is [before] with exactly the
    designs whose id is [target] taken out, every other design kept as it
    is and in the same relative order. *)
Inductive withoutId (number : Type) (target : string)
  : list (SavedDesign number) -> list (SavedDesign number) -> Prop :=
| withoutId_nil : withoutId target [] []
| withoutId_drop d before after :
    id d = target -> withoutId target before after ->
    withoutId target (d :: before) after
| withoutId_keep d before after :
    id d <> target -> withoutId target before after ->
    withoutId target (d :: before) (d :: after).

(** *** Loading from [localStorage] *)

Section Load.

(** [JSON.parse]; [None] when it throws. *)
Variable JSON_parse : string -> option Json.value.

(** "Load saved designs from localStorage": the value held by the
    [savedDesigns] cell after the mount effect, and what was logged.
    [JSON.parse] returns an untyped value which is stored as it is, so the
    cell is modelled here by the JSON value it holds. *)
Definition loadEffect (storage : gmap string string) (current : Json.value)
  : Json.value * list Output :=
  match storage !! STORAGE_KEY with
  | Some saved =>
      if String.eqb saved EmptyString then (current, [])
      else
        match JSON_parse saved with
        | Some designs => (designs, [])
        | None => (current, [ConsoleError "Failed to load saved designs:"])
        end
  | None => (current, [])
  end.

End Load.

(** The cell's initial value, [useState<SavedDesign[]>([])]. *)
Definition noDesigns : Json.value := Json.JArray [].


End Manager.

(* ===================================================================== *)
(** ** Reading the exported parameter literal back *)
(* ===================================================================== *)

Module ReadBack.
Import Manager.
Local Open Scope string_scope.
#[local] Set Implicit Arguments.

(** The value of one member of the exported [params] object: a number, a
    quoted string, or the integer index that stands for the shape. *)
Inductive Literal (number : Type) :=
| NumLit (n : number)
| StrLit (s : string)
| IntLit (z : Z).

Arguments StrLit {number} s.
Arguments IntLit {number} z.

(** *** Text utilities *)

Definition isChar (c d : ascii) : bool := Ascii.eqb c d.


(** The lines of a text (the pieces between line feeds). *)
Fixpoint lines (s : string) : list string :=
  match s with
  | EmptyString => [EmptyString]
  | String c s' =>
      if isChar newline c then EmptyString :: lines s'
      else
        match lines s' with
        | l :: ls => String c l :: ls
        | [] => [String c EmptyString]
        end
  end.

(** The text before and after the first occurrence of [sep]. *)
Fixpoint splitAt (sep : ascii) (s : string) : option (string * string) :=
  match s with
  | EmptyString => None
  | String c s' =>
      if isChar sep c then Some (EmptyString, s')
      else '(a, b) ← splitAt sep s'; Some (String c a, b)
  end.

Fixpoint stripPrefix (pre s : string) : option string :=
  match pre, s with
  | EmptyString, _ => Some s
  | String c pre', String d s' => if isChar c d then stripPrefix pre' s' else None
  | String _ _, EmptyString => None
  end.

(** Removes [c] when it is the last character of [s]. *)
Fixpoint dropLast (c : ascii) (s : string) : string :=
  match s with
  | EmptyString => EmptyString
  | String d EmptyString => if isChar c d then EmptyString else s
  | String d s' => String d (dropLast c s')
  end.

(** Removes [c] when it is the last character of [s], and fails
    otherwise. *)
Fixpoint stripLast (c : ascii) (s : string) : option string :=
  match s with
  | EmptyString => None
  | String d EmptyString => if isChar c d then Some EmptyString else None
  | String d s' => String d <$> stripLast c s'
  end.

Definition Z_parse (s : string) : option Z :=
  Z.of_int <$> NilZero.int_of_string s.

Section Reader.
Variable number : Type.
Variable Number_toString : number -> string.

(** The inverse of [Number_toString] a reader of the generated text
    would use. *)
Variable Number_parse : string -> option number.

(** *** What the literal holds *)




(** *** The reader *)

(** [glassMode] is read as a quoted string, [shape] as an integer, every
    other member as a number. *)
Definition readValue (key raw : string) : option (Literal number) :=
  if String.eqb key "glassMode" then
    s ← stripPrefix "'" raw; s ← stripLast "'"%char s; Some (StrLit s)
  else if String.eqb key "shape" then IntLit <$> Z_parse raw
  else @NumLit number <$> Number_parse raw.

(** One line [    key: value,] (the comma is absent on the last member). *)
Definition readField (line : string) : option (string * Literal number) :=
  rest ← stripPrefix "    " line;
  '(key, raw) ← splitAt ":"%char rest;
  raw ← stripPrefix " " raw;
  v ← readValue key (dropLast ","%char raw);
  Some (key, v).

Fixpoint readFields (ls : list string) : option (list (string * Literal number)) :=
  match ls with
  | [] => None
  | l :: ls' =>
      if String.eqb l "  };" then Some []
      else f ← readField l; fs ← readFields ls'; Some (f :: fs)
  end.

(** Reads the members of a [params] object literal laid out as
    [paramsLiteral] lays it out. *)
Definition readParams (literal : string) : option (list (string * Literal number)) :=
  match lines literal with
  | first :: rest =>
      if String.eqb first "  const params = {" then readFields rest else None
  | [] => None
  end.




End Reader.

End ReadBack.

(* ===================================================================== *)
(** ** Sample data *)
(* ===================================================================== *)

Module Samples.
Import Manager ReadBack.
Local Open Scope string_scope.
Local Open Scope Z_scope.

(** Integer-valued parameters; JavaScript prints an integral number of
    this size as its decimal digits. *)
Definition intParams (shape text : string) (iconSize : Z) : ShaderParams Z :=
  {| width := 100; height := 60; mouseX := 400; mouseY := 300;
     tintR := 1; tintG := 1; tintB := 1;
     saturation := 1; distortion := 0; blur := 2;
     text := text; iconSize := iconSize;
     iconColorR := 1; iconColorG := 1; iconColorB := 1;
     glassMode := "light";
     shadowIntensity := 0; shadowOffsetX := -4; shadowOffsetY := 8;
     shadowBlur := 20; cornerRadius := 12; chromaticAberration := 3;
     shape := shape;
     donutThickness := 0; starPoints := 5; starInnerRadius := 1 |}.

Definition helloCircle : ShaderParams Z := intParams "circle" "Hello" 1.
Definition byeCircle : ShaderParams Z := intParams "circle" "Bye" 1.

Definition design (i : string) (p : ShaderParams Z) : SavedDesign Z :=
  {| id := i; name := "design " ++ i; params := p;
     backgroundUrl := "bg.png"; createdAt := 1000; updatedAt := 1000 |}.

(** A stand-in for [JSON.stringify] on the sample designs: the ids. *)
Definition idsOnly (ds : list (SavedDesign Z)) : string :=
  String.concat "," (map (@id Z) ds).

(** A component with three saved designs and the name " Dawn " typed in
    the save dialog. *)
Definition threeDesigns : State Z :=
  {| savedDesigns := [design "3" helloCircle; design "2" byeCircle; design "1" helloCircle];
     isOpen := false;
     isSaveDialogOpen := true;
     isCodeDialogOpen := false;
     designName := " Dawn ";
     selectedDesign := None;
     generatedCode := EmptyString;
     localStorage := ∅;
     outputs := [] |}.

Definition someProps : Props Z :=
  {| currentParams := byeCircle; currentBackgroundUrl := "sky.png" |}.








End Samples.

(* ===================================================================== *)
(** ** The render loop of the generated component *)
(* ===================================================================== *)

Module Renderer.
Import GLSL Shader Manager.
Local Open Scope R_scope.

(** The uniforms uploaded by [render] in the generated component, for the
    design parameters [p] it was generated from: [now] is [Date.now()],
    [canvasWidth] and [canvasHeight] are [canvas.width] and
    [canvas.height] as read back after the resize, [tex] is the bound
    texture.  The generated [params.shape] is the index [shapeValue p]. *)
Definition uniformsOf (p : ShaderParams R) (now canvasWidth canvasHeight : R)
    (devicePixelRatio : R) (tex : vec2 -> vec4) : Uniforms :=
  {| u_time := now / 1000;
     u_resolution := Vec2 canvasWidth canvasHeight;
     u_mouse := Vec2 (mouseX p * devicePixelRatio) (mouseY p * devicePixelRatio);
     u_texture := tex;
     u_width := width p;
     u_height := height p;
     u_tint := Vec3 (tintR p) (tintG p) (tintB p);
     u_saturation := saturation p;
     u_distortion := distortion p;
     u_blur := blur p;
     u_cornerRadius := cornerRadius p;
     u_chromaticAberration := chromaticAberration p;
     u_shape := IZR (shapeValue p);
     u_donutThickness := donutThickness p;
     u_starPoints := starPoints p;
     u_starInnerRadius := starInnerRadius p;
     u_shadowIntensity := shadowIntensity p;
     u_shadowOffset := Vec2 (shadowOffsetX p) (shadowOffsetY p);
     u_shadowBlur := shadowBlur p;
     u_glassMode := if String.eqb (glassMode p) "dark" then 1 else 0 |}.

(** [p] with another glass mode. *)
Definition withGlassMode (p : ShaderParams R) (mode : string) : ShaderParams R :=
  {| width := width p; height := height p;
     mouseX := mouseX p; mouseY := mouseY p;
     tintR := tintR p; tintG := tintG p; tintB := tintB p;
     saturation := saturation p; distortion := distortion p; blur := blur p;
     text := text p; iconSize := iconSize p;
     iconColorR := iconColorR p; iconColorG := iconColorG p;
     iconColorB := iconColorB p;
     glassMode := mode;
     shadowIntensity := shadowIntensity p;
     shadowOffsetX := shadowOffsetX p; shadowOffsetY := shadowOffsetY p;
     shadowBlur := shadowBlur p; cornerRadius := cornerRadius p;
     chromaticAberration := chromaticAberration p;
     shape := shape p;
     donutThickness := donutThickness p; starPoints := starPoints p;
     starInnerRadius := starInnerRadius p |}.

(** Every channel of [c] lies between [lo] and [hi]. *)
Definition within (lo hi : R) (c : vec3) : Prop :=
  lo <= cr c <= hi /\ lo <= cg c <= hi /\ lo <= cb c <= hi.

(** The running sums [(color, total)] of [sampleBlurred] when every
    weighted texel lies between [lo] and [hi]. *)
Definition sumsWithin (lo hi : R) (acc : vec3 * R) : Prop :=
  lo * snd acc <= cr (fst acc) <= hi * snd acc
  /\ lo * snd acc <= cg (fst acc) <= hi * snd acc
  /\ lo * snd acc <= cb (fst acc) <= hi * snd acc.

(** The luma weights of [saturate]. *)
Definition lumaWeights : vec3 := Vec3 0.299 0.587 0.114.

(** Real-valued sample parameters: a 100 x 60 shape at (200, 150). *)
Definition realParams (shape glassMode : string) (starPoints : R) : ShaderParams R :=
  {| width := 100; height := 60; mouseX := 200; mouseY := 150;
     tintR := 1; tintG := 1; tintB := 1;
     saturation := 1; distortion := 0.5; blur := 1;
     text := "Hello"; iconSize := 0.4;
     iconColorR := 1; iconColorG := 1; iconColorB := 1;
     glassMode := glassMode;
     shadowIntensity := 0.5; shadowOffsetX := 4; shadowOffsetY := 8;
     shadowBlur := 10; cornerRadius := 12; chromaticAberration := 0;
     shape := shape;
     donutThickness := 0.3; starPoints := starPoints; starInnerRadius := 0.5 |}.

End Renderer.

(* ===================================================================== *)
(** ** A session with the component *)
(* ===================================================================== *)

Module Session.
Import Manager.
Local Open Scope string_scope.
#[local] Set Implicit Arguments.

Section Session.
Variable number : Type.
Variable Number_toString : number -> string.
Variable JSON_stringify : list (SavedDesign number) -> string.
Variable preamble : string.
Variable shadersAndSetup : string.
Variable renderLoopAndOverlay : string.
Variable overlayStyle : string.
Variable usageNotes : string.

(** What a handler does outside the component: the call to the
    [onLoadDesign] prop, the clipboard write, the file download. *)
Inductive Effect :=
| OnLoadDesign (p : ShaderParams number) (backgroundUrl : string)
| ClipboardWrite (text : string)
| Download (fileName content : string).

Definition addOutput (o : Output) (st : State number) : State number :=
  {| savedDesigns := savedDesigns st;
     isOpen := isOpen st;
     isSaveDialogOpen := isSaveDialogOpen st;
     isCodeDialogOpen := isCodeDialogOpen st;
     designName := designName st;
     selectedDesign := selectedDesign st;
     generatedCode := generatedCode st;
     localStorage := localStorage st;
     outputs := outputs st ++ [o] |}.

(** [handleLoadDesign]. *)
Definition handleLoadDesign (design : SavedDesign number) (st : State number)
  : State number * list Effect :=
  ({| savedDesigns := savedDesigns st;
      isOpen := false;
      isSaveDialogOpen := isSaveDialogOpen st;
      isCodeDialogOpen := isCodeDialogOpen st;
      designName := designName st;
      selectedDesign := selectedDesign st;
      generatedCode := generatedCode st;
      localStorage := localStorage st;
      outputs := outputs st
        ++ [ToastSuccess ("Design " ++ dq ++ name design ++ dq ++ " loaded")] |},
   [OnLoadDesign (params design) (backgroundUrl design)]).

(** [handleCopyCode]. *)
Definition handleCopyCode (st : State number) : State number * list Effect :=
  (addOutput (ToastSuccess "Code copied to clipboard") st,
   [ClipboardWrite (generatedCode st)]).

(** The [download] attribute set by [handleDownloadCode]:
    [selectedDesign?.name || 'glass-component'] followed by [.tsx]. *)
Definition downloadName (st : State number) : string :=
  match selectedDesign st with
  | Some d =>
      if String.eqb (name d) EmptyString then "glass-component" else name d
  | None => "glass-component"
  end ++ ".tsx".

(** [handleDownloadCode]. *)
Definition handleDownloadCode (st : State number) : State number * list Effect :=
  (addOutput (ToastSuccess "Code downloaded") st,
   [Download (downloadName st) (generatedCode st)]).

(** The setters wired directly to the dialogs and the name input. *)
Definition setDesignName (s : string) (st : State number) : State number :=
  {| savedDesigns := savedDesigns st;
     isOpen := isOpen st;
     isSaveDialogOpen := isSaveDialogOpen st;
     isCodeDialogOpen := isCodeDialogOpen st;
     designName := s;
     selectedDesign := selectedDesign st;
     generatedCode := generatedCode st;
     localStorage := localStorage st;
     outputs := outputs st |}.

Definition setDialogs (folder save code : bool) (st : State number) : State number :=
  {| savedDesigns := savedDesigns st;
     isOpen := folder;
     isSaveDialogOpen := save;
     isCodeDialogOpen := code;
     designName := designName st;
     selectedDesign := selectedDesign st;
     generatedCode := generatedCode st;
     localStorage := localStorage st;
     outputs := outputs st |}.

(** What the user can do.  [ClickSave] carries the props of the current
    render and the three readings of [Date.now()]. *)
Inductive Event :=
| TypeName (s : string)
| ToggleDialogs (folder save code : bool)
| ClickSave (props : Props number) (t_id t_created t_updated : Z)
| ClickDelete (target : string)
| ClickLoad (design : SavedDesign number)
| ClickCode (design : SavedDesign number)
| ClickCopy
| ClickDownload.

(** One event: the handler, then the persistence effect when the handler
    has set the [savedDesigns] cell (a save that went through, a delete);
    the effect's dependency is that cell alone. *)
Definition step (e : Event) (st : State number) : State number * list Effect :=
  match e with
  | TypeName s => (setDesignName s st, [])
  | ToggleDialogs f s c => (setDialogs f s c st, [])
  | ClickSave props t1 t2 t3 =>
      if String.eqb (trim (designName st)) EmptyString
      then (handleSaveDesign props t1 t2 t3 st, [])
      else (persistEffect JSON_stringify (handleSaveDesign props t1 t2 t3 st), [])
  | ClickDelete target =>
      (persistEffect JSON_stringify (handleDeleteDesign JSON_stringify target st), [])
  | ClickLoad d => handleLoadDesign d st
  | ClickCode d =>
      (handleExportCode Number_toString preamble shadersAndSetup
         renderLoopAndOverlay overlayStyle usageNotes d st, [])
  | ClickCopy => handleCopyCode st
  | ClickDownload => handleDownloadCode st
  end.

(** A sequence of events, first to last; the effects are collected in
    order. *)
Fixpoint run (es : list Event) (st : State number) : State number * list Effect :=
  match es with
  | [] => (st, [])
  | e :: es' =>
      let '(st1, fx1) := step e st in
      let '(st2, fx2) := run es' st1 in
      (st2, (fx1 ++ fx2)%list)
  end.

(** The stored text is the serialisation of the list whenever the list is
    not empty. *)
Definition inSync (st : State number) : Prop :=
  savedDesigns st <> [] ->
  localStorage st !! STORAGE_KEY = Some (JSON_stringify (savedDesigns st)).

(** A name as [handleSaveDesign] stores it: not empty, and unchanged by
    [trim]. *)
Definition trimmedName (s : string) : Prop :=
  s <> EmptyString /\ trim s = s.

End Session.

Arguments ClipboardWrite {number} text.
Arguments Download {number} fileName content.
Arguments TypeName {number} s.
Arguments ToggleDialogs {number} folder save code.
Arguments ClickDelete {number} target.
Arguments ClickCopy {number}.
Arguments ClickDownload {number}.

End Session.

(* ===================================================================== *)
(** ** Properties of the emitted shader *)
(* ===================================================================== *)

Module ShaderProps.
Import GLSL Shader Scenes.
Local Open Scope R_scope.

(** *** Undefined results *)

Lemma fdiv_zero (a : R) : fdiv a 0 = None.
Proof. unfold fdiv. destruct (Req_dec_T 0 0) as [_ | H]; [reflexivity | lra]. Qed.

Lemma fdiv_nonzero (a b : R) : b <> 0 -> fdiv a b = Some (a / b).
Proof. intros Hb. unfold fdiv. destruct (Req_dec_T b 0); [contradiction | reflexivity]. Qed.

Lemma length2_zero : length2 (Vec2 0 0) = 0.
Proof.
  unfold length2; simpl. replace (0 * 0 + 0 * 0) with 0 by lra. apply sqrt_0.
Qed.

Lemma normalize_zero : normalize (Vec2 0 0) = None.
Proof. unfold normalize. rewrite length2_zero, !fdiv_zero. reflexivity. Qed.

(** Once a loop body is undefined on the first counter value, the loop is. *)
Lemma for_each_first_undefined {A : Type} (x : R) (xs : list R)
    (body : R -> A -> option A) (a : A) :
  body x a = None -> for_each (x :: xs) body a = None.
Proof. intros H. simpl. rewrite H. reflexivity. Qed.

Lemma blurTap_zero_blur (U : Uniforms) (uv : vec2) (x y : R) (acc : vec3 * R) :
  blurTap U uv 0 x y acc = None.
Proof.
  unfold blurTap. destruct acc as [color total].
  replace (2 * 0 * 0) with 0 by lra. rewrite fdiv_zero.
  destruct (div2 _ _); reflexivity.
Qed.

(** *** Evaluating the built-ins on concrete arguments *)

Ltac case_Rlt :=
  repeat match goal with
  | |- context [Rlt_dec ?a ?b] => destruct (Rlt_dec a b); try lra
  end.

Ltac case_Rdec :=
  repeat match goal with
  | |- context [Rlt_dec ?a ?b] => destruct (Rlt_dec a b); try lra
  | |- context [Rle_dec ?a ?b] => destruct (Rle_dec a b); try lra
  end.

Lemma clamp_below (x lo hi : R) : x <= lo -> lo <= hi -> clamp x lo hi = lo.
Proof.
  intros Hx Hlo. unfold clamp.
  rewrite Rmax_right by exact Hx. now rewrite Rmin_left.
Qed.

Lemma clamp_above (x lo hi : R) : hi <= x -> lo <= hi -> clamp x lo hi = hi.
Proof.
  intros Hx Hlo. unfold clamp.
  rewrite Rmax_left by lra. now rewrite Rmin_right.
Qed.

Lemma length2_x_axis (x y : R) : 0 <= x -> y = 0 -> length2 (Vec2 x y) = x.
Proof.
  intros Hx ->. unfold length2; simpl.
  replace (x * x + 0 * 0) with (x * x) by lra. now apply sqrt_square.
Qed.

(** *** The branch of [main] outside the glass *)

(** Where the mask is not positive, [main] writes the texel it fetched at
    the top, whatever the shadow uniforms are. *)
Lemma main_outside_glass (U : Uniforms) (v : vec2) (sdf : R) :
  getShapeSDF U (sub2 (mul2 v (u_resolution U)) (u_mouse U)) = Some sdf ->
  boxMaskOf sdf <= 0 ->
  main U v = Some (Vec4 (rgb (u_texture U v)) 1).
Proof.
  intros Hsdf Hmask. unfold main. rewrite Hsdf. simpl.
  destruct (Rlt_dec 0 (boxMaskOf sdf)) as [H | _]; [lra | reflexivity].
Qed.

(** *** The distortion block on a flat gradient *)

Lemma zero_gradient_undefined (U : Uniforms) (v c : vec2) (ni : option R) :
  0 < u_distortion U ->
  sdfGradient U c = Some (Vec2 0 0) ->
  distortedUV U v c ni = None.
Proof.
  intros Hd Hg. unfold distortedUV, displacement.
  destruct (Rlt_dec 0 (u_distortion U)) as [_ | H]; [| contradiction].
  rewrite Hg. simpl. rewrite normalize_zero. reflexivity.
Qed.

Lemma distortedCircle_sdf (tex : vec2 -> vec4) (p : vec2) :
  getShapeSDF (distortedCircle tex) p = Some (length2 p - 50).
Proof.
  unfold getShapeSDF, distortedCircle, scene; simpl. case_Rlt.
  unfold sdCircle. rewrite Rmin_left by lra. reflexivity.
Qed.

(** C2. A circle of radius 50 with distortion 0.5, at the fragment under
    the pointer: the central differences of the distance are both zero,
    [normalize] is applied to the zero vector without a guard, and the
    undefined result reaches [distortedUV] and the colour written by
    [main]; the displacement is not the zero vector. *)
Theorem zero_gradient_reaches_pixel (tex : vec2 -> vec4) :
  sdfGradient (distortedCircle tex) (Vec2 0 0) = Some (Vec2 0 0)
  /\ distortedUV (distortedCircle tex) centreFragment (Vec2 0 0) (Some 0.5) = None
  /\ main (distortedCircle tex) centreFragment = None.
Proof.
  assert (Hgrad : sdfGradient (distortedCircle tex) (Vec2 0 0) = Some (Vec2 0 0)).
  { unfold sdfGradient. rewrite !distortedCircle_sdf. simpl.
    unfold add2, sub2; simpl. do 2 f_equal.
    - replace (length2 (Vec2 (0 - 2) (0 - 0))) with (length2 (Vec2 (0 + 2) (0 + 0))).
      + lra.
      + unfold length2; simpl. f_equal. lra.
    - replace (length2 (Vec2 (0 - 0) (0 - 2))) with (length2 (Vec2 (0 + 0) (0 + 2))).
      + lra.
      + unfold length2; simpl. f_equal. lra. }
  assert (Hd : 0 < u_distortion (distortedCircle tex)) by (simpl; lra).
  split; [exact Hgrad |]. split.
  - now apply zero_gradient_undefined.
  - unfold main.
    assert (Hc : sub2 (mul2 centreFragment (u_resolution (distortedCircle tex)))
                   (u_mouse (distortedCircle tex)) = Vec2 0 0).
    { unfold sub2, mul2, centreFragment; simpl. f_equal; lra. }
    rewrite Hc, distortedCircle_sdf, length2_zero. simpl.
    unfold boxMaskOf. rewrite clamp_below by lra.
    destruct (Rlt_dec 0 (1 - 0)) as [_ | H]; [| lra].
    rewrite zero_gradient_undefined by assumption. reflexivity.
Qed.

Lemma shadowedCircle_sdf (tex : vec2 -> vec4) (p : vec2) :
  getShapeSDF (shadowedCircle tex) p = Some (length2 p - 50).
Proof.
  unfold getShapeSDF, shadowedCircle, scene; simpl. case_Rlt.
  unfold sdCircle. rewrite Rmin_left by lra. reflexivity.
Qed.

(** C3. A circle of radius 50 with a shadow of intensity 0.5 offset by
    (20, 0) over a white background, at the pixel 60 to the right of the
    pointer: the mask is 0, the shadow block darkens white to 0.75,
    but the block sits inside [if (boxMask > 0.0)] and [main] takes the
    [else] branch, so the colour written is the undarkened white. *)
Theorem shadow_skipped_outside_glass :
  let U := shadowedCircle whiteTexture in
  let v := shadowFragment in
  let centeredUV := sub2 (mul2 v (u_resolution U)) (u_mouse U) in
  getShapeSDF U centeredUV = Some 10
  /\ boxMaskOf 10 = 0
  /\ shadowed U centeredUV (rgb (u_texture U v)) = Some (Vec3 0.75 0.75 0.75)
  /\ main U v = Some (Vec4 (Vec3 1 1 1) 1).
Proof.
  intros U v centeredUV.
  assert (Hc : centeredUV = Vec2 60 0).
  { unfold centeredUV, sub2, mul2, v, shadowFragment; simpl. f_equal; lra. }
  assert (Hsdf : getShapeSDF U centeredUV = Some 10).
  { unfold U. rewrite shadowedCircle_sdf, Hc, length2_x_axis by lra.
    f_equal; lra. }
  assert (Hmask : boxMaskOf 10 = 0).
  { unfold boxMaskOf. rewrite clamp_above by lra. lra. }
  repeat split; try assumption.
  - unfold shadowed, U. simpl. case_Rlt.
    rewrite shadowedCircle_sdf. fold U. fold v. fold centeredUV. rewrite Hc.
    unfold sub2; simpl. rewrite length2_x_axis by lra. simpl.
    rewrite fdiv_nonzero by lra. simpl.
    rewrite clamp_below by lra.
    unfold mix3, mix, scale3; simpl. do 2 f_equal; lra.
  - rewrite (main_outside_glass U v 10); [reflexivity | exact Hsdf | lra].
Qed.

(** *** Polar coordinates *)

Lemma tan_shift_PI (x : R) : cos x <> 0 -> tan (x + PI) = tan x.
Proof.
  intros Hc. unfold tan. rewrite neg_sin, neg_cos. field. exact Hc.
Qed.

Lemma polar_quotient (r theta : R) :
  0 < r -> cos theta <> 0 -> r * sin theta / (r * cos theta) = tan theta.
Proof. intros Hr Hc. unfold tan. field. split; [exact Hc | lra]. Qed.

(** [atan(y, x)] recovers the direction of a point given in polar form. *)
Lemma atan2_polar (r theta : R) :
  0 < r -> - PI < theta <= PI ->
  atan2 (r * sin theta) (r * cos theta) = Some theta.
Proof.
  intros Hr [Hlo Hhi]. pose proof PI_RGT_0 as Hpi. unfold atan2.
  destruct (Rlt_le_dec theta (- (PI / 2))) as [H1 | H1].
  - (* third quadrant *)
    assert (Hc : cos theta < 0).
    { rewrite <- cos_neg. apply cos_lt_0; lra. }
    assert (Hs : sin theta < 0) by (apply sin_lt_0_var; lra).
    assert (Hx : r * cos theta < 0) by nra.
    assert (Hy : r * sin theta < 0) by nra.
    case_Rdec.
    rewrite polar_quotient by lra.
    rewrite <- (tan_shift_PI theta) by lra.
    rewrite atan_tan by lra. f_equal; lra.
  - destruct (Req_dec_T theta (- (PI / 2))) as [E | NE].
    + subst theta. rewrite cos_neg, cos_PI2, sin_neg, sin_PI2.
      replace (r * 0) with 0 by lra.
      case_Rdec. reflexivity.
    + destruct (Rlt_le_dec theta (PI / 2)) as [H2 | H2].
      * (* right half-plane *)
        assert (Hc : 0 < cos theta) by (apply cos_gt_0; lra).
        assert (Hx : 0 < r * cos theta) by nra.
        case_Rdec.
        rewrite polar_quotient by lra.
        rewrite atan_tan by lra. reflexivity.
      * destruct (Req_dec_T theta (PI / 2)) as [E | NE2].
        -- subst theta. rewrite cos_PI2, sin_PI2.
           replace (r * 0) with 0 by lra.
           case_Rdec. reflexivity.
        -- (* second quadrant *)
           assert (Hc : cos theta < 0) by (apply cos_lt_0; lra).
           assert (Hs : 0 <= sin theta) by (apply sin_ge_0; lra).
           assert (Hx : r * cos theta < 0) by nra.
           assert (Hy : 0 <= r * sin theta) by nra.
           case_Rdec.
           rewrite polar_quotient by lra.
           assert (Hc' : cos (theta - PI) <> 0).
           { replace theta with (theta - PI + PI) in Hc by lra.
             rewrite neg_cos in Hc. lra. }
           replace (tan theta) with (tan (theta - PI + PI)) by (f_equal; lra).
           rewrite tan_shift_PI by exact Hc'.
           rewrite atan_tan by lra. f_equal; lra.
Qed.

Lemma length2_polar (r theta : R) : 0 <= r -> length2 (polar r theta) = r.
Proof.
  intros Hr. unfold length2, polar; simpl.
  replace (r * cos theta * (r * cos theta) + r * sin theta * (r * sin theta))
    with (r * r * (Rsqr (sin theta) + Rsqr (cos theta))) by (unfold Rsqr; ring).
  rewrite sin2_cos2, Rmult_1_r. now apply sqrt_square.
Qed.

Lemma floor_IZR_plus (k : Z) (f : R) : 0 <= f < 1 -> floor (IZR k + f) = IZR k.
Proof. intros Hf. unfold floor. f_equal. apply Zfloor_eq. lra. Qed.

Lemma int_5 : int 5 = 5%Z.
Proof.
  unfold int. destruct (Rlt_dec 5 0); [lra |]. apply Zfloor_eq. lra.
Qed.

(** *** The star in polar form *)

(** [sdStar] with five points on a point whose direction sits at
    [(k + f) * segmentAngle] with [0 <= f <= 1/2], i.e. between the
    [k]-th tip and the midpoint that follows it. *)
Lemma sdStar_polar (outer inner r : R) (k : Z) (f : R) :
  0 < r -> 0 <= f <= 1 / 2 ->
  - PI < (IZR k + f) * segmentAngle5 <= PI ->
  sdStar (polar r ((IZR k + f) * segmentAngle5)) outer inner 5
  = Some (r - mix outer inner (if Req_dec_T f (1 / 2) then 1 else 2 * f)).
Proof.
  intros Hr Hf Hrange. pose proof PI_RGT_0 as Hpi.
  unfold sdStar. rewrite length2_polar by lra.
  change (atan2 (vy (polar r ((IZR k + f) * segmentAngle5)))
            (vx (polar r ((IZR k + f) * segmentAngle5))))
    with (atan2 (r * sin ((IZR k + f) * segmentAngle5))
            (r * cos ((IZR k + f) * segmentAngle5))).
  rewrite atan2_polar by assumption. simpl.
  unfold PI_macro. rewrite fdiv_nonzero by lra. simpl.
  assert (Hseg : 2 * PI / 5 <> 0) by lra.
  rewrite fdiv_nonzero by exact Hseg. simpl.
  assert (Hq : (IZR k + f) * segmentAngle5 / (2 * PI / 5) = IZR k + f).
  { unfold segmentAngle5. field. lra. }
  rewrite Hq.
  rewrite fdiv_nonzero by lra. simpl.
  destruct (Req_dec_T f (1 / 2)) as [E | NE].
  - subst f.
    replace (IZR k + 1 / 2 + 0.5) with (IZR (k + 1) + 0) by (rewrite plus_IZR; lra).
    rewrite floor_IZR_plus by lra. rewrite plus_IZR.
    replace ((IZR k + 1 / 2) * segmentAngle5 - (IZR k + 1) * (2 * PI / 5))
      with (- (PI / 5)) by (unfold segmentAngle5; field).
    rewrite Rabs_Ropp, Rabs_pos_eq by lra.
    replace 0.5 with (1 / 2) by lra.
    replace (PI / 5 / (2 * PI / 5 * (1 / 2))) with 1 by (field; lra).
    reflexivity.
  - rewrite Rplus_assoc. rewrite floor_IZR_plus by lra.
    replace ((IZR k + f) * segmentAngle5 - IZR k * (2 * PI / 5))
      with (f * (2 * PI / 5)) by (unfold segmentAngle5; field).
    rewrite Rabs_pos_eq by nra.
    replace 0.5 with (1 / 2) by lra.
    replace (f * (2 * PI / 5) / (2 * PI / 5 * (1 / 2))) with (2 * f) by (field; lra).
    reflexivity.
Qed.

Lemma star_branch (U : Uniforms) (pos : vec2) :
  u_shape U = 2 ->
  getShapeSDF U pos
  = sdStar pos (Rmin (u_width U) (u_height U) * 0.8)
      (Rmin (u_width U) (u_height U) * 0.8 * u_starInnerRadius U)
      (int (u_starPoints U)).
Proof. intros H. unfold getShapeSDF. rewrite H. case_Rlt. reflexivity. Qed.

(** C6. For the star ([u_shape = 2]) with five points and inner ratio
    0.5, at every positive radius [r]: in each of the five tip directions
    [k * 2 PI / 5] the distance is [r] minus the outer radius
    [0.8 * min(width, height)], and in each of the five midpoint
    directions [(k + 1/2) * 2 PI / 5] it is [r] minus half the outer
    radius ([k] from -2 to 2). *)
Theorem star_tips_and_midpoints (U : Uniforms) (k : Z) (r : R) :
  u_shape U = 2 -> u_starPoints U = 5 -> u_starInnerRadius U = 0.5 ->
  0 < r -> (-2 <= k <= 2)%Z ->
  let outer := 0.8 * Rmin (u_width U) (u_height U) in
  getShapeSDF U (polar r (tipAngle k)) = Some (r - outer)
  /\ getShapeSDF U (polar r (midAngle k)) = Some (r - outer * 0.5).
Proof.
  intros Hshape Hpoints Hinner Hr Hk outer. pose proof PI_RGT_0 as Hpi.
  rewrite !star_branch by assumption. rewrite Hpoints, Hinner, int_5.
  assert (Hk' : -2 <= IZR k <= 2) by (split; apply IZR_le; lia).
  split.
  - unfold tipAngle. replace (IZR k) with (IZR k + 0) at 1 by lra.
    rewrite sdStar_polar; try lra.
    + destruct (Req_dec_T 0 (1 / 2)); [lra |]. unfold mix, outer. f_equal; lra.
    + unfold segmentAngle5. split; nra.
  - unfold midAngle.
    rewrite sdStar_polar; try lra.
    + destruct (Req_dec_T (1 / 2) (1 / 2)); [| lra]. unfold mix, outer. f_equal; lra.
    + unfold segmentAngle5. split; nra.
Qed.

(** The hypotheses of [star_tips_and_midpoints] hold for the scene
    [star5], second tip and midpoint, radius 10. *)
Lemma star_tips_and_midpoints_witness :
  getShapeSDF star5 (polar 10 (tipAngle 1)) = Some (10 - 0.8 * Rmin 100 60)
  /\ getShapeSDF star5 (polar 10 (midAngle 1)) = Some (10 - 0.8 * Rmin 100 60 * 0.5).
Proof.
  apply (star_tips_and_midpoints star5 1 10);
    [reflexivity | reflexivity | reflexivity | lra | lia].
Defined.

(** *** The blur sampler away from zero *)

Lemma for_each_invariant {A : Type} (P : A -> Prop) (xs : list R)
    (body : R -> A -> option A) (a : A) :
  (forall x a, P a -> exists a', body x a = Some a' /\ P a') ->
  P a -> exists a', for_each xs body a = Some a' /\ P a'.
Proof.
  intros Hbody. revert a. induction xs as [| x xs IH]; intros a Ha; simpl.
  - now exists a.
  - destruct (Hbody x a Ha) as (a' & -> & Ha'). simpl. now apply IH.
Qed.

Lemma blurTap_defined (U : Uniforms) (uv : vec2) (blurAmount x y : R)
    (acc : vec3 * R) :
  blurAmount <> 0 -> vx (u_resolution U) <> 0 -> vy (u_resolution U) <> 0 ->
  0 <= snd acc ->
  exists acc', blurTap U uv blurAmount x y acc = Some acc' /\ 0 < snd acc'.
Proof.
  intros Hb Hx Hy Hacc. destruct acc as [color total]. unfold blurTap, div2.
  rewrite (fdiv_nonzero _ (vx (u_resolution U))) by assumption. simpl.
  rewrite (fdiv_nonzero _ (vy (u_resolution U))) by assumption. simpl.
  rewrite fdiv_nonzero by nra. simpl.
  eexists; split; [reflexivity |]. simpl in *.
  pose proof (exp_pos (- (x * x + y * y) / (2 * blurAmount * blurAmount))). lra.
Qed.

Lemma for_each_strict {A : Type} (P Q : A -> Prop) (x : R) (xs : list R)
    (body : R -> A -> option A) (a : A) :
  (forall x a, P a -> exists a', body x a = Some a' /\ Q a') ->
  (forall a, Q a -> P a) ->
  P a -> exists a', for_each (x :: xs) body a = Some a' /\ Q a'.
Proof.
  intros Hbody HQP Ha. simpl.
  destruct (Hbody x a Ha) as (a1 & -> & Ha1). simpl.
  apply for_each_invariant; [| exact Ha1].
  intros y a' Ha'. apply Hbody, HQP, Ha'.
Qed.

(** With a non-zero blur amount and a non-empty canvas the sampler is
    defined: the weights are positive and so is their total. *)
Lemma sampleBlurred_defined (U : Uniforms) (uv : vec2) (blurAmount : R) :
  blurAmount <> 0 -> vx (u_resolution U) <> 0 -> vy (u_resolution U) <> 0 ->
  exists color, sampleBlurred U uv blurAmount = Some color.
Proof.
  intros Hb Hx Hy. unfold sampleBlurred, loopRange.
  destruct (for_each_strict
              (fun acc : vec3 * R => 0 <= snd acc)
              (fun acc : vec3 * R => 0 < snd acc) (-2) [-1; 0; 1; 2]
              (fun x acc => for_each [-2; -1; 0; 1; 2] (blurTap U uv blurAmount x) acc)
              (vec3s 0, 0)) as ([color total] & -> & Htotal).
  - intros x acc Hacc. apply (for_each_strict (fun acc => 0 <= snd acc)).
    + intros y acc' Hacc'. now apply blurTap_defined.
    + intros acc'. apply Rlt_le.
    + exact Hacc.
  - intros acc. apply Rlt_le.
  - simpl. lra.
  - simpl in *. unfold divs3.
    rewrite !fdiv_nonzero by lra. simpl. eexists; reflexivity.
Qed.

Lemma sharpRectangle_centre (tex : vec2 -> vec4) :
  getShapeSDF (sharpRectangle tex)
    (sub2 (mul2 centreFragment (u_resolution (sharpRectangle tex)))
       (u_mouse (sharpRectangle tex)))
  = Some (-60).
Proof.
  unfold getShapeSDF, sharpRectangle, scene; simpl. case_Rlt.
  unfold sdRoundedRect, sub2, mul2, adds2, abs2, maxs2, centreFragment; simpl.
  replace (400.5 / 800 * 800 - 400.5) with 0 by lra.
  replace (300.5 / 600 * 600 - 300.5) with 0 by lra.
  rewrite Rabs_R0.
  replace (0 - 100 + 0) with (-100) by lra.
  replace (0 - 60 + 0) with (-60) by lra.
  rewrite (Rmax_right (-100) (-60)) by lra.
  rewrite (Rmin_left (-60) 0) by lra.
  rewrite !Rmax_right by lra. rewrite length2_zero. f_equal; lra.
Qed.

(** C1. With [blurAmount = 0] every tap of [sampleBlurred] divides by
    [2.0 * blurAmount * blurAmount = 0] in the Gaussian exponent (at the
    centre tap the quotient is 0/0), so for every [uv], every texture and
    every resolution the sampler's result is undefined: it is not the
    texel at [uv].  In the rectangle scene with blur 0 the undefined
    colour is what [main] writes for the fragment under the pointer. *)
Theorem sampleBlurred_zero_blur_undefined (U : Uniforms) (uv : vec2)
    (tex : vec2 -> vec4) :
  fdiv (- (0 * 0 + 0 * 0)) (2 * 0 * 0) = None
  /\ sampleBlurred U uv 0 = None
  /\ main (sharpRectangle tex) centreFragment = None.
Proof.
  assert (Hblur : forall (U : Uniforms) (uv : vec2), sampleBlurred U uv 0 = None).
  { intros U' uv'. unfold sampleBlurred, loopRange.
    rewrite for_each_first_undefined; [reflexivity |].
    apply for_each_first_undefined, blurTap_zero_blur. }
  split; [| split].
  - replace (2 * 0 * 0) with 0 by lra. apply fdiv_zero.
  - apply Hblur.
  - unfold main. rewrite sharpRectangle_centre. simpl.
    unfold boxMaskOf. rewrite clamp_below by lra.
    destruct (Rlt_dec 0 (1 - 0)) as [_ | H]; [| lra].
    unfold distortedUV; simpl.
    destruct (Rlt_dec 0 0) as [H | _]; [lra |]. simpl.
    unfold glassSample; simpl.
    replace (0 * 3) with 0 by lra. rewrite Hblur. reflexivity.
Qed.

(** C5. When [u_distortion] is zero the guard [u_distortion > 0.0] fails,
    nothing is added to [distortedUV], and the coordinate handed to the
    sampler is [v_texCoord] itself, for every point and every other
    parameter (including those for which the gradient or the falloff
    would be undefined). *)
Theorem distortion_zero_no_displacement (U : Uniforms)
    (v_texCoord centeredUV : vec2) (normalizedInside : option R) :
  u_distortion U = 0 ->
  distortedUV U v_texCoord centeredUV normalizedInside = Some v_texCoord
  /\ distortedUV U v_texCoord centeredUV normalizedInside
     = Some (add2 v_texCoord (Vec2 0 0)).
Proof.
  intros H0. unfold distortedUV. rewrite H0.
  destruct (Rlt_dec 0 0) as [H | _]; [lra |].
  split; [reflexivity |].
  destruct v_texCoord as [x y]. unfold add2; simpl.
  now rewrite !Rplus_0_r.
Qed.

(** The scene [star5] has no distortion. *)
Lemma distortion_zero_no_displacement_witness :
  distortedUV star5 centreFragment (Vec2 0 0) None = Some centreFragment
  /\ distortedUV star5 centreFragment (Vec2 0 0) None
     = Some (add2 centreFragment (Vec2 0 0)).
Proof.
  apply (distortion_zero_no_displacement star5 centreFragment (Vec2 0 0) None).
  reflexivity.
Defined.

(** C9. [saturate] at factor 1 returns the colour itself; at factor 0 the
    three channels are all equal to the luma 0.299 R + 0.587 G + 0.114 B. *)
Theorem saturate_identity_and_gray (color : vec3) :
  saturate color 1 = color
  /\ saturate color 0
     = vec3s (0.299 * cr color + 0.587 * cg color + 0.114 * cb color)
  /\ cr (saturate color 0) = cg (saturate color 0)
  /\ cg (saturate color 0) = cb (saturate color 0).
Proof.
  destruct color as [r g b].
  unfold saturate, mix3, mix, vec3s, dot3; simpl.
  repeat split; try (f_equal; lra); lra.
Qed.

End ShaderProps.

(* ===================================================================== *)
(** ** Properties of the component *)
(* ===================================================================== *)

Module ManagerProps.
Import Manager ReadBack Samples.
Local Open Scope string_scope.

(** *** Worked examples *)

Example trim_both_ends : trim " Dawn " = "Dawn".
Proof. reflexivity. Qed.

Example trim_blank : trim "   " = EmptyString.
Proof. reflexivity. Qed.

Example save_blank_name_rejected :
  savedDesigns (handleSaveDesign someProps 1 2 3 (initialState Z ∅)) = []
  /\ outputs (handleSaveDesign someProps 1 2 3 (initialState Z ∅))
     = [ToastError "Please enter a name for your design"].
Proof. split; reflexivity. Qed.

Example delete_middle :
  map (@id Z) (savedDesigns (handleDeleteDesign idsOnly "2" threeDesigns))
  = ["3"; "1"].
Proof. reflexivity. Qed.

Example parse_array :
  Json.parse "[1, 2.5, -3e2]"
  = Some (Json.JArray [Json.JNumber 1; Json.JNumber (5 # 2); Json.JNumber (-300)]).
Proof. reflexivity. Qed.

Example parse_object :
  Json.parse (Json.jsonText "{'a': [true, null], 'b': 'x'}")
  = Some (Json.JObject [("a", Json.JArray [Json.JBool true; Json.JNull]);
                        ("b", Json.JString "x")]).
Proof. reflexivity. Qed.

Example parse_trailing_comma : Json.parse "[1,]" = None.
Proof. reflexivity. Qed.

Example parse_leading_zero : Json.parse "01" = None.
Proof. reflexivity. Qed.

Example parse_unterminated : Json.parse (Json.jsonText "{'a': 1") = None.
Proof. reflexivity. Qed.

Example parse_trailing_text : Json.parse "[] x" = None.
Proof. reflexivity. Qed.

(** *** Saving and deleting *)


(** What [withoutId] says about membership and order. *)
Lemma withoutId_elem_of {number : Type} (target : string)
    (before after : list (SavedDesign number)) :
  withoutId target before after ->
  after `sublist_of` before
  /\ forall d, d ∈ after <-> d ∈ before /\ id d <> target.
Proof.
  induction 1 as [| d before after E _ [IHs IHm] | d before after NE _ [IHs IHm]].
  - split; [constructor |]. intros d. rewrite elem_of_nil. tauto.
  - split; [now apply sublist_cons |].
    intros d'. rewrite elem_of_cons, IHm. split.
    + tauto.
    + intros [[-> | Hin] Hne]; [congruence | tauto].
  - split; [now apply sublist_skip |].
    intros d'. rewrite !elem_of_cons, IHm. split.
    + intros [-> | [Hin Hne]]; tauto.
    + tauto.
Qed.



(** *** Loading *)




End ManagerProps.

(* ===================================================================== *)
(** ** Properties of the export *)
(* ===================================================================== *)

Module ExportProps.
Import GLSL Shader Scenes Manager ReadBack Samples.
Local Open Scope string_scope.

(** *** Shape index *)

(** C8. Each variant name is exported as its position in
    [rectangle, circle, star, hexagon, donut], and with [u_shape] set to
    that position the thresholds of [getShapeSDF] select the distance
    formula of the same variant: rounded rectangle, circle, star, hexagon,
    donut. *)
Theorem export_shape_dispatch {number : Type} (p : ShaderParams number)
    (v : Variant) (U : Uniforms) (pos : vec2) :
  shape p = variantName v ->
  u_shape U = IZR (shapeValue p) ->
  nth_error shapeNames (Z.to_nat (shapeValue p)) = Some (shape p)
  /\ (0 <= shapeValue p < 5)%Z
  /\ getShapeSDF U pos = shapeFormula v U pos.
Proof.
  intros Hshape Hu. unfold getShapeSDF. rewrite Hu.
  unfold shapeValue. rewrite Hshape.
  destruct v;
    match goal with
    | |- context [indexOf ?a ?b] =>
        let k := eval vm_compute in (indexOf a b) in
        change (indexOf a b) with k
    end;
    (split; [reflexivity |]); (split; [lia |]);
    repeat match goal with
    | |- context [Rlt_dec ?a ?b] => destruct (Rlt_dec a b); try lra
    end; reflexivity.
Qed.

(** The circle of [helloCircle] and the scene [distortedCircle]. *)
Lemma export_shape_dispatch_witness :
  nth_error shapeNames (Z.to_nat (shapeValue helloCircle)) = Some (shape helloCircle)
  /\ (0 <= shapeValue helloCircle < 5)%Z
  /\ getShapeSDF (distortedCircle whiteTexture) (Vec2 3 4)
     = shapeFormula Circle (distortedCircle whiteTexture) (Vec2 3 4).
Proof.
  apply (export_shape_dispatch helloCircle Circle (distortedCircle whiteTexture)
           (Vec2 3 4)); reflexivity.
Defined.

(** *** Text lemmas *)

#[local] Arguments String.append !_ _ / : simpl nomatch.










(** *** The reader inverts the layout *)

Section RoundTrip.
Context {number : Type}.
Variable Number_toString : number -> string.
Variable Number_parse : string -> option number.







End RoundTrip.




(** *** Worked examples *)

Example indexOf_star : indexOf shapeNames "star" = 2%Z.
Proof. reflexivity. Qed.

Example indexOf_unknown : indexOf shapeNames "blob" = (-1)%Z.
Proof. reflexivity. Qed.

Example lines_two : lines ("ab" ++ nl ++ "cd") = ["ab"; "cd"].
Proof. reflexivity. Qed.

Example readField_width :
  readField Z_parse "    width: 100," = Some ("width", NumLit 100%Z).
Proof. reflexivity. Qed.

Example readField_glassMode :
  readField Z_parse "    glassMode: 'dark'," = Some ("glassMode", StrLit "dark").
Proof. reflexivity. Qed.

Example readField_last :
  readField Z_parse "    starInnerRadius: 1" = Some ("starInnerRadius", NumLit 1%Z).
Proof. reflexivity. Qed.

Example readParams_rejects_other_text :
  readParams Z_parse "const params = 3;" = None.
Proof. reflexivity. Qed.

End ExportProps.

(* ===================================================================== *)
(** ** Further properties of the shader *)
(* ===================================================================== *)

Module ShaderMore.
Import GLSL Shader Scenes Manager Renderer.
Local Open Scope R_scope.

Ltac case_R :=
  repeat match goal with
  | |- context [Rlt_dec ?a ?b] => destruct (Rlt_dec a b); try lra
  | |- context [Rle_dec ?a ?b] => destruct (Rle_dec a b); try lra
  end.

(** *** The mask *)

Lemma boxMask_cases (sdf : R) :
  0 <= boxMaskOf sdf <= 1
  /\ (boxMaskOf sdf = 1 <-> sdf <= 0)
  /\ (boxMaskOf sdf = 0 <-> 1 <= sdf)
  /\ (0 < boxMaskOf sdf <-> sdf < 1).
Proof.
  unfold boxMaskOf, clamp.
  destruct (Rle_lt_dec sdf 0) as [H0 | H0].
  - rewrite (Rmax_right sdf 0), (Rmin_left 0 1) by lra.
    repeat split; intros; lra.
  - rewrite (Rmax_left sdf 0) by lra.
    destruct (Rle_lt_dec sdf 1) as [H1 | H1].
    + rewrite (Rmin_left sdf 1) by lra. repeat split; intros; lra.
    + rewrite (Rmin_right sdf 1) by lra. repeat split; intros; lra.
Qed.

(** X1. The glass mask [1.0 - clamp(sdf, 0.0, 1.0)] always lies in
    [0, 1]; it is 1 exactly on and inside the boundary, 0 exactly from one
    unit outside on, and positive (the glass branch of [main] is taken)
    exactly when the distance is below 1. *)
Theorem boxMask_range (sdf : R) :
  0 <= boxMaskOf sdf <= 1
  /\ (boxMaskOf sdf = 1 <-> sdf <= 0)
  /\ (boxMaskOf sdf = 0 <-> 1 <= sdf)
  /\ (0 < boxMaskOf sdf <-> sdf < 1).
Proof. exact (boxMask_cases sdf). Qed.

(** *** Colour adjustment *)

(** X2. [saturate] never changes the luma of a colour, whatever the
    factor, and leaves a gray colour (three equal channels) as it is: the
    three weights add up to one. *)
Theorem saturate_preserves_luma (color : vec3) (factor gray : R) :
  dot3 (saturate color factor) lumaWeights = dot3 color lumaWeights
  /\ saturate (vec3s gray) factor = vec3s gray.
Proof.
  destruct color as [r g b].
  unfold saturate, mix3, mix, vec3s, dot3, lumaWeights; simpl.
  split.
  - replace 0.299 with (299 / 1000) by lra.
    replace 0.587 with (587 / 1000) by lra.
    replace 0.114 with (114 / 1000) by lra. field.
  - replace 0.299 with (299 / 1000) by lra.
    replace 0.587 with (587 / 1000) by lra.
    replace 0.114 with (114 / 1000) by lra. f_equal; field.
Qed.

(** *** Where the shapes are *)

Lemma sqrt_le_iff (s r : R) : 0 <= s -> 0 <= r -> (sqrt s <= r <-> s <= r * r).
Proof.
  intros Hs Hr. pose proof (sqrt_pos s) as Hp.
  pose proof (sqrt_sqrt s Hs) as Hq. split; intros H.
  - nra.
  - destruct (Rle_lt_dec (sqrt s) r) as [Hle | Hlt]; [exact Hle | nra].
Qed.

(** X3. For a corner radius [r >= 0] the rounded rectangle's distance is
    at most zero exactly on the rounded box: the overshoot of [|pos|]
    beyond the inner box [halfSize - r], clipped at zero, has length at
    most [r].  With [r = 0] this is the box [|x| <= w], [|y| <= h]. *)
Theorem roundedRect_inside (x y w h r : R) :
  0 <= r ->
  (sdRoundedRect (Vec2 x y) (Vec2 w h) r <= 0
   <-> Rmax (Rabs x - w + r) 0 * Rmax (Rabs x - w + r) 0
       + Rmax (Rabs y - h + r) 0 * Rmax (Rabs y - h + r) 0 <= r * r)
  /\ (sdRoundedRect (Vec2 x y) (Vec2 w h) 0 <= 0 <-> Rabs x <= w /\ Rabs y <= h).
Proof.
  intros Hr.
  assert (Hgen : forall r', 0 <= r' ->
    (sdRoundedRect (Vec2 x y) (Vec2 w h) r' <= 0
     <-> Rmax (Rabs x - w + r') 0 * Rmax (Rabs x - w + r') 0
         + Rmax (Rabs y - h + r') 0 * Rmax (Rabs y - h + r') 0 <= r' * r')).
  { intros r' Hr'.
    unfold sdRoundedRect, adds2, sub2, abs2, maxs2, length2; simpl.
    set (qx := Rabs x - w + r'). set (qy := Rabs y - h + r').
    set (S := Rmax qx 0 * Rmax qx 0 + Rmax qy 0 * Rmax qy 0).
    assert (HS : 0 <= S) by (unfold S; nra).
    pose proof (sqrt_le_iff S r' HS Hr') as Hsq.
    pose proof (sqrt_pos S) as Hp.
    destruct (Rle_lt_dec (Rmax qx qy) 0) as [Hin | Hout].
    - (* inside the inner box: the clipped overshoot is zero *)
      assert (Hqx : qx <= 0) by (pose proof (Rmax_l qx qy); lra).
      assert (Hqy : qy <= 0) by (pose proof (Rmax_r qx qy); lra).
      assert (HS0 : S = 0).
      { unfold S. rewrite !Rmax_right by lra. lra. }
      rewrite (Rmin_left _ 0) by lra. rewrite HS0, sqrt_0. split; intros _; nra.
    - rewrite (Rmin_right _ 0) by lra. rewrite <- Hsq. split; intros; lra. }
  split; [now apply Hgen |].
  rewrite (Hgen 0) by lra.
  replace (Rabs x - w + 0) with (Rabs x - w) by lra.
  replace (Rabs y - h + 0) with (Rabs y - h) by lra.
  unfold Rmax.
  repeat match goal with
  | |- context [Rle_dec ?a ?b] => destruct (Rle_dec a b)
  end; split; intros; try split; try nra.
Qed.

(** The box 100 x 60 with corner radius 12. *)
Lemma roundedRect_inside_witness :
  (sdRoundedRect (Vec2 3 4) (Vec2 100 60) 12 <= 0
   <-> Rmax (Rabs 3 - 100 + 12) 0 * Rmax (Rabs 3 - 100 + 12) 0
       + Rmax (Rabs 4 - 60 + 12) 0 * Rmax (Rabs 4 - 60 + 12) 0 <= 12 * 12)
  /\ (sdRoundedRect (Vec2 3 4) (Vec2 100 60) 0 <= 0
      <-> Rabs 3 <= 100 /\ Rabs 4 <= 60).
Proof. apply (roundedRect_inside 3 4 100 60 12). lra. Defined.

(** X4. The donut's distance is negative exactly on the open ring between
    the inner radius [outer * (1 - thickness)] and the outer radius, zero
    or negative exactly on the closed ring. *)
Theorem donut_ring (pos : vec2) (outer thickness : R) :
  (sdDonut pos outer thickness < 0
   <-> outer * (1 - thickness) < length2 pos < outer)
  /\ (sdDonut pos outer thickness <= 0
      <-> outer * (1 - thickness) <= length2 pos <= outer).
Proof.
  unfold sdDonut, Rmax.
  destruct (Rle_dec _ _); repeat split; intros; try lra.
Qed.

(** *** The blur sampler as a weighted average *)

Lemma blurTap_within (U : Uniforms) (uv : vec2) (blurAmount x y lo hi : R)
    (acc : vec3 * R) :
  blurAmount <> 0 -> vx (u_resolution U) <> 0 -> vy (u_resolution U) <> 0 ->
  (forall p, within lo hi (rgb (u_texture U p))) ->
  0 <= snd acc /\ sumsWithin lo hi acc ->
  exists acc', blurTap U uv blurAmount x y acc = Some acc'
               /\ 0 < snd acc' /\ sumsWithin lo hi acc'.
Proof.
  intros Hb Hx Hy Htex [Htot Hsum]. destruct acc as [color total].
  unfold blurTap, div2.
  rewrite (ShaderProps.fdiv_nonzero _ (vx (u_resolution U))) by assumption. simpl.
  rewrite (ShaderProps.fdiv_nonzero _ (vy (u_resolution U))) by assumption. simpl.
  rewrite ShaderProps.fdiv_nonzero by nra. simpl.
  eexists; split; [reflexivity |].
  set (w := exp (- (x * x + y * y) / (2 * blurAmount * blurAmount))).
  assert (Hw : 0 < w) by apply exp_pos.
  match goal with
  | |- context [u_texture U ?p] => specialize (Htex p); set (t := rgb (u_texture U p)) in *
  end.
  destruct Htex as (Hr & Hg & Hb').
  unfold sumsWithin in *; simpl in *.
  destruct Hsum as (Sr & Sg & Sb).
  split; [lra |]. repeat split; nra.
Qed.

(** X5. With a non-zero blur amount and a non-empty canvas the blur is a
    weighted average with positive weights: if every texel of the
    background has its channels between [lo] and [hi], so has the blurred
    colour, at every coordinate.  In particular a uniformly coloured
    background is returned unchanged. *)
Theorem blur_within_texel_range (U : Uniforms) (uv : vec2)
    (blurAmount lo hi : R) :
  blurAmount <> 0 -> vx (u_resolution U) <> 0 -> vy (u_resolution U) <> 0 ->
  (forall p, within lo hi (rgb (u_texture U p))) ->
  exists color, sampleBlurred U uv blurAmount = Some color /\ within lo hi color.
Proof.
  intros Hb Hx Hy Htex. unfold sampleBlurred, loopRange.
  set (P := fun acc : vec3 * R => 0 <= snd acc /\ sumsWithin lo hi acc).
  set (Q := fun acc : vec3 * R => 0 < snd acc /\ sumsWithin lo hi acc).
  assert (HQP : forall acc, Q acc -> P acc).
  { intros acc [H1 H2]. split; [lra | exact H2]. }
  destruct (ShaderProps.for_each_strict P Q (-2) [-1; 0; 1; 2]
              (fun x acc => for_each [-2; -1; 0; 1; 2] (blurTap U uv blurAmount x) acc)
              (vec3s 0, 0)) as ([color total] & -> & Htotal & Hsum).
  - intros x acc Hacc. apply (ShaderProps.for_each_strict P Q).
    + intros y acc' Hacc'. now apply blurTap_within.
    + exact HQP.
    + exact Hacc.
  - exact HQP.
  - unfold P, sumsWithin; simpl. repeat split; lra.
  - simpl in *. unfold divs3.
    rewrite !ShaderProps.fdiv_nonzero by lra. simpl.
    eexists; split; [reflexivity |].
    unfold sumsWithin in Hsum; simpl in Hsum.
    destruct Hsum as (Sr & Sg & Sb).
    assert (Hdiv : forall c, lo * total <= c <= hi * total -> lo <= c / total <= hi).
    { intros c [H1 H2].
      assert (Hc : c / total * total = c) by (field; lra).
      assert (Hi : 0 < / total) by now apply Rinv_0_lt_compat.
      split.
      - apply Rmult_le_reg_r with total; [lra |]. lra.
      - apply Rmult_le_reg_r with total; [lra |]. lra. }
    unfold within; simpl. repeat split; apply Hdiv; assumption.
Qed.

(** A white background blurred by 3 on the 800 x 600 canvas. *)
Lemma blur_within_texel_range_witness :
  exists color,
    sampleBlurred star5 centreFragment 3 = Some color /\ within 1 1 color.
Proof.
  apply (blur_within_texel_range star5 centreFragment 3 1 1).
  - lra.
  - simpl; lra.
  - simpl; lra.
  - intros p. unfold within; simpl. lra.
Defined.

(** *** The shadow *)

Lemma darken_bounds (x m : R) :
  0 <= x -> 0 <= m <= 1 -> 0 <= x * (1 - m) + x * (1 - m) * m <= x.
Proof.
  intros Hx Hm.
  assert (H1 : 0 <= x * (1 - m)) by nra.
  assert (H2 : 0 <= x * (1 - m) * m) by nra.
  assert (H3 : 0 <= x * m * m) by nra.
  split; nra.
Qed.

(** X6. With an intensity in [0, 1] and a non-zero shadow blur the shadow
    block only darkens: each channel of the result lies between 0 and the
    channel it started from, for a background with non-negative channels;
    and at a point whose offset distance is at least the shadow blur (for
    a positive blur) the background is returned unchanged. *)
Theorem shadow_only_darkens (U : Uniforms) (centeredUV : vec2) (bg : vec3)
    (shadowSdf : R) :
  0 <= u_shadowIntensity U <= 1 ->
  u_shadowBlur U <> 0 ->
  getShapeSDF U (sub2 centeredUV (u_shadowOffset U)) = Some shadowSdf ->
  0 <= cr bg -> 0 <= cg bg -> 0 <= cb bg ->
  exists out,
    shadowed U centeredUV bg = Some out
    /\ 0 <= cr out <= cr bg /\ 0 <= cg out <= cg bg /\ 0 <= cb out <= cb bg
    /\ (0 < u_shadowBlur U <= shadowSdf -> out = bg).
Proof.
  intros HI Hblur Hsdf Hr Hg Hb. unfold shadowed.
  destruct (Rlt_dec 0 (u_shadowIntensity U)) as [Hpos | Hzero].
  - rewrite Hsdf. simpl. rewrite ShaderProps.fdiv_nonzero by exact Hblur. simpl.
    set (q := shadowSdf / u_shadowBlur U).
    destruct (boxMask_cases q) as (Hrange & _ & Hfar & _).
    unfold boxMaskOf in Hrange, Hfar.
    set (k := 1 - clamp q 0 1) in *.
    set (m := k * u_shadowIntensity U).
    assert (Hm : 0 <= m <= 1) by (unfold m; nra).
    eexists; split; [reflexivity |].
    destruct bg as [r g b]; unfold mix3, mix, scale3; simpl in *.
    pose proof (darken_bounds r m Hr Hm).
    pose proof (darken_bounds g m Hg Hm).
    pose proof (darken_bounds b m Hb Hm).
    repeat split; try lra.
    intros [Hb1 Hb2].
    assert (Hq : 1 <= q).
    { unfold q. apply Rmult_le_reg_r with (u_shadowBlur U); [lra |].
      replace (shadowSdf / u_shadowBlur U * u_shadowBlur U) with shadowSdf
        by (field; lra). lra. }
    assert (Hk : k = 0) by now apply Hfar.
    assert (Hm0 : m = 0) by (unfold m; rewrite Hk; lra).
    rewrite Hm0. f_equal; lra.
  - exists bg. split; [reflexivity |].
    repeat split; lra.
Qed.

(** The shadowed circle, at the fragment 60 to the right of the pointer. *)
Lemma shadow_only_darkens_witness :
  exists out,
    shadowed (shadowedCircle whiteTexture) (Vec2 60 0) (Vec3 1 1 1) = Some out
    /\ 0 <= cr out <= 1 /\ 0 <= cg out <= 1 /\ 0 <= cb out <= 1
    /\ (0 < u_shadowBlur (shadowedCircle whiteTexture) <= -10 -> out = Vec3 1 1 1).
Proof.
  apply (shadow_only_darkens (shadowedCircle whiteTexture) (Vec2 60 0)
           (Vec3 1 1 1) (-10)).
  - simpl; lra.
  - simpl; lra.
  - rewrite ShaderProps.shadowedCircle_sdf. unfold sub2; simpl.
    rewrite ShaderProps.length2_x_axis by lra. f_equal; lra.
  - simpl; lra.
  - simpl; lra.
  - simpl; lra.
Defined.

(** *** The circle *)

(** X7. For the circle ([0.5 <= u_shape < 1.5]) the distance of a fragment
    is its distance to the pointer minus [min(width, height)]; up to that
    radius the mask is 1, and from one unit beyond it [main] writes the
    background texel unchanged. *)
Theorem circle_mask (U : Uniforms) (v : vec2) :
  0.5 <= u_shape U < 1.5 ->
  let centeredUV := sub2 (mul2 v (u_resolution U)) (u_mouse U) in
  let radius := Rmin (u_width U) (u_height U) in
  getShapeSDF U centeredUV = Some (length2 centeredUV - radius)
  /\ (length2 centeredUV <= radius -> boxMaskOf (length2 centeredUV - radius) = 1)
  /\ (radius + 1 <= length2 centeredUV ->
      main U v = Some (Vec4 (rgb (u_texture U v)) 1)).
Proof.
  intros Hshape centeredUV radius.
  assert (Hsdf : getShapeSDF U centeredUV = Some (length2 centeredUV - radius)).
  { unfold getShapeSDF. case_R. reflexivity. }
  split; [exact Hsdf |]. split.
  - intros Hin. apply boxMask_cases. lra.
  - intros Hout.
    apply (ShaderProps.main_outside_glass U v (length2 centeredUV - radius)).
    + exact Hsdf.
    + assert (H0 : boxMaskOf (length2 centeredUV - radius) = 0)
        by (apply boxMask_cases; lra).
      lra.
Qed.

(** The circle of radius 50 at the fragment 60 to the right. *)
Lemma circle_mask_witness :
  let U := shadowedCircle whiteTexture in
  let centeredUV := sub2 (mul2 shadowFragment (u_resolution U)) (u_mouse U) in
  let radius := Rmin (u_width U) (u_height U) in
  getShapeSDF U centeredUV = Some (length2 centeredUV - radius)
  /\ (length2 centeredUV <= radius -> boxMaskOf (length2 centeredUV - radius) = 1)
  /\ (radius + 1 <= length2 centeredUV ->
      main U shadowFragment = Some (Vec4 (rgb (u_texture U shadowFragment)) 1)).
Proof.
  apply (circle_mask (shadowedCircle whiteTexture) shadowFragment).
  simpl; lra.
Defined.

(** *** Mirror symmetry and the gradient at the pointer *)

Lemma length2_mirror (x y : R) :
  length2 (Vec2 (- x) y) = length2 (Vec2 x y)
  /\ length2 (Vec2 x (- y)) = length2 (Vec2 x y).
Proof. unfold length2; simpl. split; f_equal; lra. Qed.

Lemma abs2_mirror (x y : R) :
  abs2 (Vec2 (- x) y) = abs2 (Vec2 x y)
  /\ abs2 (Vec2 x (- y)) = abs2 (Vec2 x y).
Proof. unfold abs2; simpl. rewrite !Rabs_Ropp. split; reflexivity. Qed.

(** Every shape but the star is mirror-symmetric in both axes. *)
Lemma shape_mirror (U : Uniforms) (x y : R) :
  u_shape U < 1.5 \/ 2.5 <= u_shape U ->
  getShapeSDF U (Vec2 (- x) y) = getShapeSDF U (Vec2 x y)
  /\ getShapeSDF U (Vec2 x (- y)) = getShapeSDF U (Vec2 x y)
  /\ exists d, getShapeSDF U (Vec2 x y) = Some d.
Proof.
  intros Hshape.
  destruct (length2_mirror x y) as [Lx Ly].
  destruct (abs2_mirror x y) as [Ax Ay].
  unfold getShapeSDF. case_R.
  - unfold sdRoundedRect. rewrite Ax, Ay. eauto.
  - unfold sdCircle. rewrite Lx, Ly. eauto.
  - unfold sdHexagon. rewrite Ax, Ay. eauto.
  - unfold sdDonut. rewrite Lx, Ly. eauto.
Qed.

(** X8. For every shape but the star the two central differences taken
    at the pointer are exactly zero, whatever the size parameters; so with
    a positive distortion the distortion block normalizes the zero vector
    and leaves [distortedUV] undefined at the pointer, and [main] is
    undefined for a fragment centred on the pointer that lies in the
    glass. *)
Theorem pointer_gradient_vanishes (U : Uniforms) :
  u_shape U < 1.5 \/ 2.5 <= u_shape U ->
  sdfGradient U (Vec2 0 0) = Some (Vec2 0 0)
  /\ (0 < u_distortion U ->
      (forall v ni, distortedUV U v (Vec2 0 0) ni = None)
      /\ (forall v sdf,
            sub2 (mul2 v (u_resolution U)) (u_mouse U) = Vec2 0 0 ->
            getShapeSDF U (Vec2 0 0) = Some sdf -> sdf < 1 ->
            main U v = None)).
Proof.
  intros Hshape.
  assert (Hgrad : sdfGradient U (Vec2 0 0) = Some (Vec2 0 0)).
  { unfold sdfGradient, add2, sub2; simpl.
    replace (Vec2 (0 + 2) (0 + 0)) with (Vec2 2 0) by (f_equal; lra).
    replace (Vec2 (0 - 2) (0 - 0)) with (Vec2 (Ropp 2) 0) by (f_equal; lra).
    replace (Vec2 (0 + 0) (0 + 2)) with (Vec2 0 2) by (f_equal; lra).
    replace (Vec2 (0 - 0) (0 - 2)) with (Vec2 0 (Ropp 2)) by (f_equal; lra).
    destruct (shape_mirror U 2 0 Hshape) as (-> & _ & d1 & ->).
    destruct (shape_mirror U 0 2 Hshape) as (_ & -> & d2 & ->).
    simpl. f_equal. f_equal; lra. }
  split; [exact Hgrad |].
  intros Hd. split.
  - intros v ni. now apply ShaderProps.zero_gradient_undefined.
  - intros v sdf Hc Hsdf Hin. unfold main. rewrite Hc, Hsdf. simpl.
    destruct (Rlt_dec 0 (boxMaskOf sdf)) as [_ | Hn].
    + rewrite ShaderProps.zero_gradient_undefined by assumption. reflexivity.
    + exfalso. apply Hn. now apply boxMask_cases.
Qed.

(** The hexagon is one of these shapes. *)
Lemma pointer_gradient_vanishes_witness :
  let U := scene whiteTexture 3 100 60 0.5 1 0 (Vec2 0 0) 10 in
  sdfGradient U (Vec2 0 0) = Some (Vec2 0 0)
  /\ (0 < u_distortion U ->
      (forall v ni, distortedUV U v (Vec2 0 0) ni = None)
      /\ (forall v sdf,
            sub2 (mul2 v (u_resolution U)) (u_mouse U) = Vec2 0 0 ->
            getShapeSDF U (Vec2 0 0) = Some sdf -> sdf < 1 ->
            main U v = None)).
Proof.
  apply (pointer_gradient_vanishes
           (scene whiteTexture 3 100 60 0.5 1 0 (Vec2 0 0) 10)).
  right. simpl. lra.
Defined.

(** *** The star *)

Lemma int_of_Z (x : R) (n : Z) : (0 <= n)%Z -> x = IZR n -> int x = n.
Proof.
  intros Hn ->. unfold int.
  assert (0 <= IZR n) by now apply IZR_le.
  destruct (Rlt_dec (IZR n) 0); [lra |]. apply Zfloor_eq. lra.
Qed.

Lemma int_small (x : R) : -1 < x < 1 -> int x = 0%Z.
Proof.
  intros Hx. unfold int. destruct (Rlt_dec x 0).
  - rewrite (Zfloor_eq 0 (- x)) by (simpl; lra). reflexivity.
  - apply Zfloor_eq. simpl; lra.
Qed.

(** X9. The star's boundary, for any positive number of points [n]: in
    the direction [(k + f) * 2 PI / n], at the fraction [f] of a segment
    away from the [k]-th tip ([-1/2 <= f <= 1/2]), the distance is the
    radius minus [mix(outer, inner, 2 |f|)].  The boundary radius depends
    on [|f|] only, falls linearly from the outer radius at a tip to the
    inner radius at half a segment, and takes the same value on both
    sides of each seam. *)
Theorem star_boundary_profile (U : Uniforms) (n k : Z) (f r : R) :
  1.5 <= u_shape U < 2.5 ->
  int (u_starPoints U) = n -> (0 < n)%Z ->
  0 < r -> -1 / 2 <= f <= 1 / 2 ->
  - PI < (IZR k + f) * (2 * PI / IZR n) <= PI ->
  getShapeSDF U (polar r ((IZR k + f) * (2 * PI / IZR n)))
  = Some (r - mix (Rmin (u_width U) (u_height U) * 0.8)
                  (Rmin (u_width U) (u_height U) * 0.8 * u_starInnerRadius U)
                  (2 * Rabs f)).
Proof.
  intros Hshape Hint Hn Hr Hf Hrange. pose proof PI_RGT_0 as Hpi.
  assert (Hn' : 0 < IZR n) by now apply IZR_lt.
  unfold getShapeSDF. case_R. rewrite Hint. cbv zeta.
  set (outer := Rmin (u_width U) (u_height U) * 0.8).
  set (inner := outer * u_starInnerRadius U).
  set (seg := 2 * PI / IZR n) in *.
  assert (Hseg : 0 < seg).
  { unfold seg. apply Rdiv_lt_0_compat; lra. }
  unfold sdStar. rewrite ShaderProps.length2_polar by lra.
  change (atan2 (vy (polar r ((IZR k + f) * seg))) (vx (polar r ((IZR k + f) * seg))))
    with (atan2 (r * sin ((IZR k + f) * seg)) (r * cos ((IZR k + f) * seg))).
  rewrite ShaderProps.atan2_polar by assumption. simpl.
  unfold PI_macro. fold seg. rewrite ShaderProps.fdiv_nonzero by lra. simpl.
  fold seg. rewrite ShaderProps.fdiv_nonzero by lra. simpl.
  replace ((IZR k + f) * seg / seg) with (IZR k + f) by (field; lra).
  rewrite ShaderProps.fdiv_nonzero by lra. simpl.
  replace 0.5 with (1 / 2) by lra.
  destruct (Req_dec_T f (1 / 2)) as [E | NE].
  - subst f.
    replace (IZR k + 1 / 2 + 1 / 2) with (IZR (k + 1) + 0) by (rewrite plus_IZR; lra).
    rewrite ShaderProps.floor_IZR_plus by lra. rewrite plus_IZR.
    replace ((IZR k + 1 / 2) * seg - (IZR k + 1) * seg) with (- (seg / 2)) by lra.
    rewrite Rabs_Ropp, (Rabs_pos_eq (seg / 2)) by lra.
    rewrite (Rabs_pos_eq (1 / 2)) by lra.
    replace (seg / 2 / (seg * (1 / 2))) with (2 * (1 / 2)) by (field; lra).
    reflexivity.
  - rewrite Rplus_assoc. rewrite ShaderProps.floor_IZR_plus by lra.
    replace ((IZR k + f) * seg - IZR k * seg) with (f * seg) by lra.
    rewrite Rabs_mult, (Rabs_pos_eq seg) by lra.
    replace (Rabs f * seg / (seg * (1 / 2))) with (2 * Rabs f) by (field; lra).
    reflexivity.
Qed.

(** A quarter of a segment past the first tip of the five-pointed star. *)
Lemma star_boundary_profile_witness :
  getShapeSDF star5 (polar 10 ((IZR 1 + 1 / 4) * (2 * PI / IZR 5)))
  = Some (10 - mix (Rmin (u_width star5) (u_height star5) * 0.8)
                   (Rmin (u_width star5) (u_height star5) * 0.8
                    * u_starInnerRadius star5)
                   (2 * Rabs (1 / 4))).
Proof.
  pose proof PI_RGT_0 as Hpi.
  apply (star_boundary_profile star5 5 1 (1 / 4) 10).
  - simpl; lra.
  - apply ShaderProps.int_5.
  - lia.
  - lra.
  - lra.
  - lra.
Defined.

Lemma atan2_defined (y x : R) : x <> 0 \/ y <> 0 -> exists a, atan2 y x = Some a.
Proof.
  intros H. unfold atan2.
  destruct (Rlt_dec 0 x); [eauto |].
  destruct (Rlt_dec x 0); [destruct (Rle_dec 0 y); eauto |].
  destruct (Rlt_dec 0 y); [eauto |].
  destruct (Rlt_dec y 0); [eauto |].
  exfalso. destruct H; lra.
Qed.

(** X10. Away from the pointer, a star with a positive number of points,
    a non-negative outer radius and an inner radius that is a fraction
    [0 <= ratio <= 1] of it is always defined, and its boundary stays
    between the inner and the outer circle: the distance lies between the
    distance to the outer circle and the distance to the inner one. *)
Theorem star_between_circles (pos : vec2) (outer ratio : R) (n : Z) :
  vx pos <> 0 \/ vy pos <> 0 ->
  (0 < n)%Z -> 0 <= outer -> 0 <= ratio <= 1 ->
  exists d,
    sdStar pos outer (outer * ratio) n = Some d
    /\ length2 pos - outer <= d <= length2 pos - outer * ratio.
Proof.
  intros Hpos Hn Houter Hratio. pose proof PI_RGT_0 as Hpi.
  assert (Hn' : 0 < IZR n) by now apply IZR_lt.
  destruct (atan2_defined (vy pos) (vx pos) Hpos) as [a Ha].
  unfold sdStar. rewrite Ha. simpl.
  unfold PI_macro. set (seg := 2 * PI / IZR n).
  assert (Hseg : 0 < seg) by (unfold seg; apply Rdiv_lt_0_compat; lra).
  rewrite ShaderProps.fdiv_nonzero by lra. simpl. fold seg.
  rewrite ShaderProps.fdiv_nonzero by lra. simpl.
  rewrite ShaderProps.fdiv_nonzero by lra. simpl.
  eexists; split; [reflexivity |].
  set (z := floor (a / seg + 0.5)).
  assert (Hz : z <= a / seg + 0.5 < z + 1) by apply Zfloor_bound.
  assert (Ha' : a = a / seg * seg) by (field; lra).
  set (q := a / seg) in *.
  assert (Hlocal : Rabs (a - z * seg) <= seg * 0.5).
  { rewrite Ha'. replace (q * seg - z * seg) with ((q - z) * seg) by lra.
    rewrite Rabs_mult, (Rabs_pos_eq seg) by lra.
    assert (Rabs (q - z) <= 0.5) by (apply Rabs_le; lra).
    nra. }
  set (t := Rabs (a - z * seg) / (seg * 0.5)).
  assert (Ht : 0 <= t <= 1).
  { unfold t. pose proof (Rabs_pos (a - z * seg)) as Hp. split.
    - apply Rmult_le_reg_r with (seg * 0.5); [lra |].
      replace (Rabs (a - z * seg) / (seg * 0.5) * (seg * 0.5))
        with (Rabs (a - z * seg)) by (field; lra). lra.
    - apply Rmult_le_reg_r with (seg * 0.5); [lra |].
      replace (Rabs (a - z * seg) / (seg * 0.5) * (seg * 0.5))
        with (Rabs (a - z * seg)) by (field; lra). lra. }
  clearbody t. clear - Ht Houter Hratio. unfold mix.
  assert (H1 : 0 <= outer * (1 - ratio)) by nra.
  set (k := outer * (1 - ratio)) in *.
  replace (outer * (1 - t) + outer * ratio * t) with (outer - k * t)
    by (unfold k; ring).
  replace (outer * ratio) with (outer - k) by (unfold k; ring).
  clearbody k. split; nra.
Qed.

(** A five-pointed star of outer radius 48 at the point (3, 4). *)
Lemma star_between_circles_witness :
  exists d,
    sdStar (Vec2 3 4) 48 (48 * 0.5) 5 = Some d
    /\ length2 (Vec2 3 4) - 48 <= d <= length2 (Vec2 3 4) - 48 * 0.5.
Proof.
  apply (star_between_circles (Vec2 3 4) 48 0.5 5).
  - left. simpl. lra.
  - lia.
  - lra.
  - lra.
Defined.

(** X11. The star is undefined where its formula divides by zero or asks
    for the angle of the zero vector: at the pointer itself, for every
    star, and everywhere when [u_starPoints] truncates to zero points
    ([-1 < u_starPoints < 1]); [main] is then undefined too, at the
    fragment centred on the pointer and at every fragment. *)
Theorem star_undefined (U : Uniforms) :
  1.5 <= u_shape U < 2.5 ->
  getShapeSDF U (Vec2 0 0) = None
  /\ (forall v, sub2 (mul2 v (u_resolution U)) (u_mouse U) = Vec2 0 0 ->
                main U v = None)
  /\ (-1 < u_starPoints U < 1 ->
      (forall pos, getShapeSDF U pos = None) /\ (forall v, main U v = None)).
Proof.
  intros Hshape.
  assert (H0 : getShapeSDF U (Vec2 0 0) = None).
  { unfold getShapeSDF. case_R. cbv zeta. unfold sdStar, atan2; simpl.
    case_R. reflexivity. }
  split; [exact H0 |]. split.
  - intros v Hc. unfold main. rewrite Hc, H0. reflexivity.
  - intros Hpoints.
    assert (Hall : forall pos, getShapeSDF U pos = None).
    { intros pos. unfold getShapeSDF. case_R. cbv zeta.
      rewrite int_small by exact Hpoints. unfold sdStar.
      destruct (atan2 (vy pos) (vx pos)); simpl; [| reflexivity].
      rewrite ShaderProps.fdiv_zero. reflexivity. }
    split; [exact Hall |].
    intros v. unfold main. rewrite Hall. reflexivity.
Qed.

(** The five-pointed star at the pointer. *)
Lemma star_undefined_witness :
  getShapeSDF star5 (Vec2 0 0) = None
  /\ (forall v, sub2 (mul2 v (u_resolution star5)) (u_mouse star5) = Vec2 0 0 ->
                main star5 v = None)
  /\ (-1 < u_starPoints star5 < 1 ->
      (forall pos, getShapeSDF star5 pos = None) /\ (forall v, main star5 v = None)).
Proof. apply (star_undefined star5). simpl; lra. Defined.

(** *** The hexagon *)

Lemma length2_y_axis (x y : R) : x = 0 -> length2 (Vec2 x y) * sign y = y.
Proof.
  intros ->. unfold length2, sign; simpl.
  replace (0 * 0 + y * y) with (Rsqr y) by (unfold Rsqr; lra).
  rewrite sqrt_Rsqr_abs. case_R.
  - rewrite Rabs_pos_eq by lra. lra.
  - rewrite Rabs_left by lra. lra.
Qed.

(** X12. On the vertical axis through the pointer the hexagon's distance
    is [|y| - size]: the hexagon is flat-topped, its upper and lower
    sides lying [size = 0.8 * min(width, height)] above and below the
    pointer. *)
Theorem hexagon_flat_sides (y size : R) :
  0 <= size -> sdHexagon (Vec2 0 y) size = Rabs y - size.
Proof.
  intros Hs. pose proof (Rabs_pos y) as Hy.
  unfold sdHexagon, abs2, sub2, scale2, dot2, clamp; simpl.
  rewrite Rabs_R0.
  rewrite (Rmin_right (-0.866025404 * 0 + 0.5 * Rabs y) 0) by lra.
  match goal with
  | |- context [Rmax ?a ?b] => rewrite (Rmax_left a b) by lra
  end.
  match goal with
  | |- context [Rmin ?a ?b] => rewrite (Rmin_left a b) by lra
  end.
  rewrite length2_y_axis by lra. lra.
Qed.

(** The hexagon of size 48. *)
Lemma hexagon_flat_sides_witness : sdHexagon (Vec2 0 50) 48 = Rabs 50 - 48.
Proof. apply (hexagon_flat_sides 50 48). lra. Defined.

(** *** Where [main] is defined *)

Lemma pow_defined (x : R) : 0 <= x -> exists p, pow x 12 = Some p.
Proof.
  intros Hx. unfold pow.
  destruct (Rlt_dec x 0); [lra |].
  destruct (Req_dec_T x 0); [| eauto].
  destruct (Rle_dec 12 0); [lra | eauto].
Qed.

(** X13. [main] writes a colour whenever the parameters keep every
    division and built-in inside its domain: the shape distance is
    defined at the fragment, [u_height] is not zero and the falloff base
    [sdf / u_height + 1] is not negative, distortion and chromatic
    aberration are off, the blur and the canvas size are not zero, and
    the shadow is off or has a non-zero blur and a defined distance.
    Where the mask is 1 the colour is the adjusted glass colour alone,
    where it is 0 the background texel. *)
Theorem main_defined (U : Uniforms) (v : vec2) (sdf : R) :
  getShapeSDF U (sub2 (mul2 v (u_resolution U)) (u_mouse U)) = Some sdf ->
  u_height U <> 0 -> 0 <= sdf / u_height U + 1 ->
  u_distortion U <= 0 -> u_chromaticAberration U <= 0 ->
  u_blur U <> 0 -> vx (u_resolution U) <> 0 -> vy (u_resolution U) <> 0 ->
  (u_shadowIntensity U <= 0
   \/ (u_shadowBlur U <> 0
       /\ exists s, getShapeSDF U
                      (sub2 (sub2 (mul2 v (u_resolution U)) (u_mouse U))
                         (u_shadowOffset U)) = Some s)) ->
  exists glass p color,
    sampleBlurred U v (u_blur U * 3) = Some glass
    /\ pow (sdf / u_height U + 1) 12 = Some p
    /\ main U v = Some (Vec4 color 1)
    /\ (sdf <= 0 ->
        color = add3 (mul3 (saturate glass (u_saturation U)) (u_tint U))
                  (vec3s (mix 0 0.3 (clamp p 0 1))))
    /\ (1 <= sdf -> color = rgb (u_texture U v)).
Proof.
  intros Hsdf Hh Hni Hdist Hab Hblur Hrx Hry Hshadow.
  destruct (ShaderProps.sampleBlurred_defined U v (u_blur U * 3)) as [glass Hg];
    try assumption; [lra |].
  destruct (pow_defined _ Hni) as [p Hp].
  assert (Hsh : exists bg', shadowed U (sub2 (mul2 v (u_resolution U)) (u_mouse U))
                              (rgb (u_texture U v)) = Some bg').
  { unfold shadowed. destruct (Rlt_dec 0 (u_shadowIntensity U)) as [Hpos | _];
      [| eauto].
    destruct Hshadow as [Hoff | (Hsb & s & Hs)]; [lra |].
    rewrite Hs. simpl. rewrite ShaderProps.fdiv_nonzero by exact Hsb. simpl. eauto. }
  destruct Hsh as [bg' Hbg'].
  destruct (boxMask_cases sdf) as (_ & Hone & Hzero & Hpos).
  exists glass, p.
  unfold main. rewrite Hsdf. simpl.
  destruct (Rlt_dec 0 (boxMaskOf sdf)) as [Hin | Hout].
  - unfold distortedUV.
    destruct (Rlt_dec 0 (u_distortion U)) as [H | _]; [lra |]. simpl.
    unfold glassSample. rewrite Hg. simpl.
    destruct (Rlt_dec 0 (u_chromaticAberration U)) as [H | _]; [lra |]. simpl.
    rewrite ShaderProps.fdiv_nonzero by exact Hh. simpl.
    rewrite Hp. simpl. rewrite Hbg'. simpl.
    eexists. repeat split; try assumption.
    + intros Hle. apply Hone in Hle. rewrite Hle.
      unfold mix3, mix. destruct bg' as [r g b]; simpl.
      unfold add3, vec3s; simpl. f_equal; lra.
    + intros Hge. apply Hpos in Hin. lra.
  - exists (rgb (u_texture U v)). repeat split; try assumption.
    intros Hle. exfalso. apply Hout. apply Hpos. lra.
Qed.

(** The fragment under the pointer of the shadowed circle. *)
Lemma main_defined_witness :
  let U := shadowedCircle whiteTexture in
  exists glass p color,
    sampleBlurred U centreFragment (u_blur U * 3) = Some glass
    /\ pow (-50 / u_height U + 1) 12 = Some p
    /\ main U centreFragment = Some (Vec4 color 1)
    /\ (-50 <= 0 ->
        color = add3 (mul3 (saturate glass (u_saturation U)) (u_tint U))
                  (vec3s (mix 0 0.3 (clamp p 0 1))))
    /\ (1 <= -50 -> color = rgb (u_texture U centreFragment)).
Proof.
  assert (Hc : sub2 (mul2 centreFragment (u_resolution (shadowedCircle whiteTexture)))
                 (u_mouse (shadowedCircle whiteTexture)) = Vec2 0 0).
  { unfold sub2, mul2, centreFragment; simpl. f_equal; lra. }
  apply (main_defined (shadowedCircle whiteTexture) centreFragment (-50)).
  - rewrite ShaderProps.shadowedCircle_sdf, Hc, ShaderProps.length2_zero.
    f_equal; lra.
  - simpl; lra.
  - simpl; lra.
  - simpl; lra.
  - simpl; lra.
  - simpl; lra.
  - simpl; lra.
  - simpl; lra.
  - right. split; [simpl; lra |].
    eexists. apply ShaderProps.shadowedCircle_sdf.
Defined.

(** *** What [main] writes *)

(** X14. Whenever [main] writes a colour its alpha is 1. *)
Theorem main_is_opaque (U : Uniforms) (v : vec2) (c : vec4) :
  main U v = Some c -> alpha c = 1.
Proof.
  unfold main. intros H.
  destruct (getShapeSDF U _) as [sdf |]; simpl in H; [| discriminate].
  destruct (Rlt_dec 0 (boxMaskOf sdf)).
  - repeat match type of H with
    | context [mbind _ ?e] => destruct e; simpl in H; try discriminate
    end.
    now injection H as <-.
  - now injection H as <-.
Qed.

(** Outside the shadowed circle. *)
Lemma main_is_opaque_witness :
  alpha (Vec4 (Vec3 1 1 1) 1) = 1.
Proof.
  apply (main_is_opaque (shadowedCircle whiteTexture) shadowFragment).
  apply (ShaderProps.main_outside_glass (shadowedCircle whiteTexture)
           shadowFragment 10).
  - rewrite ShaderProps.shadowedCircle_sdf.
    replace (sub2 (mul2 shadowFragment (u_resolution (shadowedCircle whiteTexture)))
               (u_mouse (shadowedCircle whiteTexture)))
      with (Vec2 60 0)
      by (unfold sub2, mul2, shadowFragment; simpl; f_equal; lra).
    rewrite ShaderProps.length2_x_axis by lra. f_equal; lra.
  - unfold boxMaskOf. rewrite ShaderProps.clamp_above by lra. lra.
Defined.

(** *** The uniforms uploaded by the generated component *)

(** X15. The pixel does not depend on the glass mode of the design nor on
    the time of the frame: [u_glassMode] and [u_time] are uploaded but
    never read by [main]. *)
Theorem glass_mode_and_time_inert (p : ShaderParams R) (mode : string)
    (now now' canvasWidth canvasHeight devicePixelRatio : R)
    (tex : vec2 -> vec4) (v : vec2) :
  main (uniformsOf (withGlassMode p mode) now' canvasWidth canvasHeight
          devicePixelRatio tex) v
  = main (uniformsOf p now canvasWidth canvasHeight devicePixelRatio tex) v.
Proof. reflexivity. Qed.

(** X16. A shape name outside [rectangle, circle, star, hexagon, donut] is
    exported as the index -1, and the generated component then draws the
    rounded rectangle. *)
Theorem unknown_shape_is_rectangle (p : ShaderParams R)
    (now canvasWidth canvasHeight devicePixelRatio : R)
    (tex : vec2 -> vec4) (pos : vec2) :
  ~ In (shape p) shapeNames ->
  shapeValue p = (-1)%Z
  /\ getShapeSDF (uniformsOf p now canvasWidth canvasHeight devicePixelRatio tex) pos
     = Some (sdRoundedRect pos (Vec2 (width p) (height p)) (cornerRadius p)).
Proof.
  intros Hnot.
  assert (Hv : shapeValue p = (-1)%Z).
  { unfold shapeValue, indexOf, shapeNames in *. cbn [indexOfFrom].
    repeat match goal with
    | |- context [String.eqb ?a (shape p)] =>
        destruct (String.eqb_spec a (shape p)) as [E | _];
        [exfalso; apply Hnot; rewrite <- E; simpl; tauto |]
    end.
    reflexivity. }
  split; [exact Hv |].
  unfold getShapeSDF. cbn [u_shape uniformsOf]. rewrite Hv.
  destruct (Rlt_dec (-1) 0.5) as [_ | H]; [reflexivity | lra].
Qed.

(** A design whose shape is "blob". *)
Lemma unknown_shape_is_rectangle_witness :
  shapeValue (realParams "blob" "light" 5) = (-1)%Z
  /\ getShapeSDF (uniformsOf (realParams "blob" "light" 5) 0 800 600 1 whiteTexture)
       (Vec2 3 4)
     = Some (sdRoundedRect (Vec2 3 4)
               (Vec2 (width (realParams "blob" "light" 5))
                     (height (realParams "blob" "light" 5)))
               (cornerRadius (realParams "blob" "light" 5))).
Proof.
  apply (unknown_shape_is_rectangle (realParams "blob" "light" 5) 0 800 600 1
           whiteTexture (Vec2 3 4)).
  simpl. intros H. repeat destruct H as [H | H]; try discriminate H. exact H.
Defined.

End ShaderMore.

(* ===================================================================== *)
(** ** Properties of a session *)
(* ===================================================================== *)

Module SessionProps.
Import Manager ReadBack Samples Session.
Local Open Scope string_scope.

(** *** [trim] *)

Lemma trimStart_head (l : list ascii) (c : ascii) :
  head (trimStart l) = Some c -> isWhiteSpace c = false.
Proof.
  induction l as [| a l IH]; simpl; [discriminate |].
  destruct (isWhiteSpace a) eqn:E; [exact IH |].
  simpl. intros [= <-]. exact E.
Qed.

Lemma trimStart_fixed (l : list ascii) :
  (forall c, head l = Some c -> isWhiteSpace c = false) -> trimStart l = l.
Proof.
  destruct l as [| a l]; simpl; [reflexivity |].
  intros H. now rewrite (H a eq_refl).
Qed.

Lemma trimStart_suffix (l : list ascii) :
  exists pre, l = (pre ++ trimStart l)%list.
Proof.
  induction l as [| a l [pre IH]]; simpl.
  - now exists [].
  - destruct (isWhiteSpace a).
    + exists (a :: pre). simpl. now f_equal.
    + now exists [].
Qed.

Lemma trimStart_white (l : list ascii) :
  Forall (fun c => isWhiteSpace c = true) l -> trimStart l = [].
Proof.
  induction 1 as [| a l Ha _ IH]; simpl; [reflexivity |]. now rewrite Ha.
Qed.

Lemma trim_list_ends (l : list ascii) :
  let t := rev (trimStart (rev (trimStart l))) in
  (forall c, head t = Some c -> isWhiteSpace c = false)
  /\ (forall c, last t = Some c -> isWhiteSpace c = false)
  /\ rev (trimStart (rev (trimStart t))) = t.
Proof.
  intros t.
  assert (Hhead : forall c, head t = Some c -> isWhiteSpace c = false).
  { intros c Hc. apply (trimStart_head l).
    destruct (trimStart_suffix (rev (trimStart l))) as [pre Hpre].
    apply (f_equal (@rev ascii)) in Hpre.
    rewrite rev_involutive, rev_app_distr in Hpre. fold t in Hpre.
    rewrite Hpre. destruct t as [| x t']; [discriminate | exact Hc]. }
  assert (Hb : forall c, head (trimStart (rev (trimStart l))) = Some c ->
                         isWhiteSpace c = false).
  { intros c. apply trimStart_head. }
  split; [exact Hhead |]. split.
  - intros c Hc. apply Hb. unfold t in Hc.
    destruct (trimStart (rev (trimStart l))) as [| x b']; [discriminate |].
    simpl in Hc. rewrite last_snoc in Hc. exact Hc.
  - rewrite (trimStart_fixed t Hhead). unfold t at 1.
    rewrite rev_involutive. now rewrite (trimStart_fixed _ Hb).
Qed.

Lemma trim_trim (s : string) : trim (trim s) = trim s.
Proof.
  unfold trim. rewrite !list_ascii_of_string_of_list_ascii.
  destruct (trim_list_ends (list_ascii_of_string s)) as (_ & _ & H3).
  now rewrite H3.
Qed.


(** *** Decimal identifiers *)



Lemma filter_all {A : Type} (f : A -> bool) (l : list A) :
  (forall x, In x l -> f x = true) -> List.filter f l = l.
Proof.
  induction l as [| a l IH]; simpl; intros H; [reflexivity |].
  rewrite (H a) by now left. f_equal. apply IH. intros x Hx. apply H. now right.
Qed.

Lemma find_nothing {A : Type} (f : A -> bool) (l : list A) :
  (forall x, In x l -> f x = false) -> List.find f l = None.
Proof.
  induction l as [| a l IH]; simpl; intros H; [reflexivity |].
  rewrite (H a) by now left. apply IH. intros x Hx. apply H. now right.
Qed.

Section Handlers.
Context {number : Type}.
Variable Number_toString : number -> string.
Variable JSON_stringify : list (SavedDesign number) -> string.
Variables preamble shadersAndSetup renderLoopAndOverlay : string.
Variables overlayStyle usageNotes : string.

#[local] Abbreviation step' :=
  (step Number_toString JSON_stringify preamble shadersAndSetup
     renderLoopAndOverlay overlayStyle usageNotes).
#[local] Abbreviation run' :=
  (run Number_toString JSON_stringify preamble shadersAndSetup
     renderLoopAndOverlay overlayStyle usageNotes).
#[local] Abbreviation keep target :=
  (fun d : SavedDesign number => negb (String.eqb (id d) target)).

(** *** Saving *)


(** X18. A name made of white space only (the empty name included) is
    rejected: the save handler leaves every state cell and the storage as
    they were and only shows the error toast, and no persistence follows. *)
Theorem blank_name_rejected (props : Props number)
    (t_id t_created t_updated : Z) (st : State number) :
  Forall (fun c => isWhiteSpace c = true) (list_ascii_of_string (designName st)) ->
  handleSaveDesign props t_id t_created t_updated st
  = addOutput (ToastError "Please enter a name for your design") st
  /\ step' (ClickSave props t_id t_created t_updated) st
     = (addOutput (ToastError "Please enter a name for your design") st, []).
Proof using Type.
  intros Hws.
  assert (Ht : trim (designName st) = EmptyString).
  { unfold trim. rewrite (trimStart_white _ Hws). reflexivity. }
  assert (Hs : handleSaveDesign props t_id t_created t_updated st
               = addOutput (ToastError "Please enter a name for your design") st).
  { unfold handleSaveDesign. rewrite Ht. reflexivity. }
  split; [exact Hs |].
  unfold step. rewrite Ht. simpl. now rewrite Hs.
Qed.




(** X22. The generated code depends on a design only through its name,
    its parameters and its background: the id and the two dates never
    reach the text. *)
Theorem export_ignores_id_and_dates (d d' : SavedDesign number) :
  name d = name d' -> params d = params d' ->
  backgroundUrl d = backgroundUrl d' ->
  generateComponentCode Number_toString preamble shadersAndSetup
    renderLoopAndOverlay overlayStyle usageNotes d
  = generateComponentCode Number_toString preamble shadersAndSetup
      renderLoopAndOverlay overlayStyle usageNotes d'.
Proof using Type.
  intros Hn Hp Hb. unfold generateComponentCode. now rewrite Hn, Hp, Hb.
Qed.

(** *** Deleting *)

(** X23. Deleting an id that no saved design has leaves the list as it
    is, still rewrites the stored text, and announces that the design
    "undefined" was deleted. *)
Theorem delete_unknown_id (target : string) (st : State number) :
  (forall d, In d (savedDesigns st) -> id d <> target) ->
  savedDesigns (handleDeleteDesign JSON_stringify target st) = savedDesigns st
  /\ localStorage (handleDeleteDesign JSON_stringify target st)
     = <[STORAGE_KEY := JSON_stringify (savedDesigns st)]> (localStorage st)
  /\ outputs (handleDeleteDesign JSON_stringify target st)
     = (outputs st
        ++ [ToastSuccess ("Design " ++ dq ++ "undefined" ++ dq ++ " deleted")])%list.
Proof using Type.
  intros Hnone.
  assert (Hkeep : List.filter (keep target) (savedDesigns st) = savedDesigns st).
  { apply filter_all. intros d Hd.
    destruct (String.eqb_spec (id d) target) as [E | _]; [| reflexivity].
    now apply Hnone in Hd. }
  assert (Hfind : List.find (fun d => String.eqb (id d) target) (savedDesigns st)
                  = None).
  { apply find_nothing. intros d Hd.
    destruct (String.eqb_spec (id d) target) as [E | _]; [| reflexivity].
    now apply Hnone in Hd. }
  unfold handleDeleteDesign; simpl. rewrite Hkeep, Hfind. repeat split.
Qed.

Lemma filter_twice {A : Type} (f g : A -> bool) (l : list A) :
  List.filter f (List.filter g l) = List.filter g (List.filter f l).
Proof.
  induction l as [| a l IH]; simpl; [reflexivity |].
  destruct (f a) eqn:Ef, (g a) eqn:Eg; simpl; rewrite ?Ef, ?Eg, IH; reflexivity.
Qed.

Lemma filter_again {A : Type} (f : A -> bool) (l : list A) :
  List.filter f (List.filter f l) = List.filter f l.
Proof.
  apply filter_all. intros x Hx. now apply filter_In in Hx.
Qed.

(** X24. Deleting the same id twice is the same as deleting it once, and
    two deletions give the same list and the same stored text in either
    order. *)
Theorem delete_idempotent_and_commutes (a b : string) (st : State number) :
  let del := handleDeleteDesign JSON_stringify in
  savedDesigns (del a (del a st)) = savedDesigns (del a st)
  /\ localStorage (del a (del a st)) = localStorage (del a st)
  /\ savedDesigns (del a (del b st)) = savedDesigns (del b (del a st))
  /\ localStorage (del a (del b st)) = localStorage (del b (del a st)).
Proof using Type.
  intros del. unfold del, handleDeleteDesign; simpl.
  rewrite filter_again. rewrite (filter_twice (keep a) (keep b)).
  rewrite !insert_insert_eq. repeat split.
Qed.

(** X25. After a delete the stored text is the serialisation of what is
    left, also when nothing is left, and the persistence effect that
    follows changes nothing; on its own the effect never writes an empty
    list. *)
Theorem delete_keeps_storage_exact (target : string) (st : State number) :
  let st' := handleDeleteDesign JSON_stringify target st in
  localStorage st' !! STORAGE_KEY = Some (JSON_stringify (savedDesigns st'))
  /\ persistEffect JSON_stringify st' = st'
  /\ (savedDesigns st = [] -> persistEffect JSON_stringify st = st).
Proof using Type.
  intros st'. split; [| split].
  - unfold st', handleDeleteDesign; simpl. apply lookup_insert_eq.
  - unfold persistEffect.
    destruct (0 <? length (savedDesigns st'))%nat; [| reflexivity].
    unfold st', handleDeleteDesign; simpl.
    rewrite insert_insert_eq. reflexivity.
  - intros Hnil. unfold persistEffect. rewrite Hnil. reflexivity.
Qed.

(** *** Invariants of a session *)

Lemma persistEffect_inSync (st : State number) :
  inSync JSON_stringify (persistEffect JSON_stringify st).
Proof using Type.
  unfold inSync, persistEffect.
  destruct (0 <? length (savedDesigns st))%nat eqn:E.
  - simpl. intros _. apply lookup_insert_eq.
  - intros H. exfalso. apply H.
    destruct (savedDesigns st); [reflexivity | discriminate E].
Qed.

Lemma step_inSync (e : Event number) (st : State number) :
  inSync JSON_stringify st -> inSync JSON_stringify (fst (step' e st)).
Proof using Type.
  intros H. destruct e; simpl; try exact H.
  - destruct (String.eqb (trim (designName st)) EmptyString) eqn:E; simpl.
    + unfold handleSaveDesign. rewrite E. exact H.
    + apply persistEffect_inSync.
  - apply persistEffect_inSync.
Qed.

(** X26. Through any sequence of events the stored text stays in step
    with the list: whenever the list of saved designs is not empty, the
    text under the storage key is its serialisation. *)
Theorem storage_in_sync (es : list (Event number)) (st : State number) :
  inSync JSON_stringify st -> inSync JSON_stringify (fst (run' es st)).
Proof using Type.
  revert st. induction es as [| e es IH]; intros st H; simpl; [exact H |].
  pose proof (step_inSync e st H) as Hs.
  destruct (step' e st) as [st1 fx1]. simpl in Hs.
  specialize (IH st1 Hs).
  destruct (run' es st1) as [st2 fx2]. exact IH.
Qed.

Lemma step_names (e : Event number) (st : State number) :
  Forall (fun d => trimmedName (name d)) (savedDesigns st) ->
  Forall (fun d => trimmedName (name d)) (savedDesigns (fst (step' e st))).
Proof using Type.
  intros H. destruct e; simpl; try exact H.
  - destruct (String.eqb_spec (trim (designName st)) EmptyString) as [E | NE]; simpl.
    + unfold handleSaveDesign. rewrite E. exact H.
    + assert (Hsaved : savedDesigns
                (persistEffect JSON_stringify
                   (handleSaveDesign props t_id t_created t_updated st))
              = {| id := Z_toString t_id; name := trim (designName st);
                   params := currentParams props;
                   backgroundUrl := currentBackgroundUrl props;
                   createdAt := t_created; updatedAt := t_updated |}
                :: savedDesigns st).
      { unfold persistEffect, handleSaveDesign.
        destruct (String.eqb_spec (trim (designName st)) EmptyString);
          [contradiction |]. reflexivity. }
      rewrite Hsaved. constructor; [| exact H].
      split; [exact NE | apply trim_trim].
  - assert (Hsaved : savedDesigns
              (persistEffect JSON_stringify
                 (handleDeleteDesign JSON_stringify target st))
            = List.filter (keep target) (savedDesigns st)).
    { unfold persistEffect.
      destruct (0 <? _)%nat; reflexivity. }
    rewrite Hsaved. apply List.Forall_forall. intros d Hd.
    apply filter_In in Hd as [Hd _].
    revert d Hd. now apply List.Forall_forall.
Qed.

(** X27. Through any sequence of events every saved design keeps a name
    that is not empty and is unchanged by [trim], provided the designs
    present at the start have such names. *)
Theorem names_stay_trimmed (es : list (Event number)) (st : State number) :
  Forall (fun d => trimmedName (name d)) (savedDesigns st) ->
  Forall (fun d => trimmedName (name d)) (savedDesigns (fst (run' es st))).
Proof using Type.
  revert st. induction es as [| e es IH]; intros st H; simpl; [exact H |].
  pose proof (step_names e st H) as Hs.
  destruct (step' e st) as [st1 fx1]. simpl in Hs.
  specialize (IH st1 Hs).
  destruct (run' es st1) as [st2 fx2]. exact IH.
Qed.

(** *** Export, copy, download *)

(** X28. Exporting a design and then copying and downloading hands out
    the generated code of that design both times, names the file after
    the design (or [glass-component] when its name is empty), and leaves
    the saved designs and the storage untouched. *)
Theorem export_copy_download (design : SavedDesign number) (st : State number) :
  let code := generateComponentCode Number_toString preamble shadersAndSetup
                renderLoopAndOverlay overlayStyle usageNotes design in
  let fileName :=
    (if String.eqb (name design) EmptyString then "glass-component"
     else name design) ++ ".tsx" in
  snd (run' [ClickCode design; ClickCopy; ClickDownload] st)
  = [ClipboardWrite code; Download fileName code]
  /\ savedDesigns (fst (run' [ClickCode design; ClickCopy; ClickDownload] st))
     = savedDesigns st
  /\ localStorage (fst (run' [ClickCode design; ClickCopy; ClickDownload] st))
     = localStorage st.
Proof using Type.
  intros code fileName. repeat split.
Qed.

End Handlers.

(** *** Loading *)

(** X29. When nothing is stored under the key, or the stored text is
    empty, the mount effect leaves the list as it is and logs nothing,
    whatever [JSON.parse] would do. *)
Theorem load_nothing_stored (JSON_parse : string -> option Json.value)
    (storage : gmap string string) (current : Json.value) :
  storage !! STORAGE_KEY = None \/ storage !! STORAGE_KEY = Some EmptyString ->
  loadEffect JSON_parse storage current = (current, []).
Proof.
  intros [H | H]; unfold loadEffect; rewrite H; reflexivity.
Qed.

(** *** The hypotheses on sample sessions *)


(** A name of two spaces typed over the three sample designs. *)
Lemma blank_name_rejected_witness :
  let st := setDesignName "  " threeDesigns in
  handleSaveDesign someProps 1 2 3 st
  = addOutput (ToastError "Please enter a name for your design") st
  /\ step Z_toString idsOnly EmptyString EmptyString EmptyString EmptyString
       EmptyString (ClickSave someProps 1 2 3) st
     = (addOutput (ToastError "Please enter a name for your design") st, []).
Proof.
  apply (blank_name_rejected Z_toString idsOnly EmptyString EmptyString
           EmptyString EmptyString EmptyString someProps 1 2 3
           (setDesignName "  " threeDesigns)).
  repeat constructor.
Defined.


(** No sample design has the id "9". *)
Lemma delete_unknown_id_witness :
  savedDesigns (handleDeleteDesign idsOnly "9" threeDesigns)
  = savedDesigns threeDesigns
  /\ localStorage (handleDeleteDesign idsOnly "9" threeDesigns)
     = <[STORAGE_KEY := idsOnly (savedDesigns threeDesigns)]>
         (localStorage threeDesigns)
  /\ outputs (handleDeleteDesign idsOnly "9" threeDesigns)
     = (outputs threeDesigns
        ++ [ToastSuccess ("Design " ++ dq ++ "undefined" ++ dq ++ " deleted")])%list.
Proof.
  apply (delete_unknown_id idsOnly "9" threeDesigns).
  intros d [<- | [<- | [<- | []]]]; discriminate.
Defined.

(** A fresh component: a name typed, a save, a delete. *)
Lemma storage_in_sync_witness :
  inSync idsOnly
    (fst (run Z_toString idsOnly EmptyString EmptyString EmptyString EmptyString
            EmptyString
            [TypeName "Dawn"; ClickSave someProps 1 2 3; ClickDelete "1"]
            (initialState Z ∅))).
Proof.
  apply (storage_in_sync Z_toString idsOnly EmptyString EmptyString EmptyString
           EmptyString EmptyString
           [TypeName "Dawn"; ClickSave someProps 1 2 3; ClickDelete "1"]
           (initialState Z ∅)).
  intros H. now contradiction H.
Defined.

(** The three sample designs carry trimmed names. *)
Lemma names_stay_trimmed_witness :
  Forall (fun d => trimmedName (name d))
    (savedDesigns
       (fst (run Z_toString idsOnly EmptyString EmptyString EmptyString
               EmptyString EmptyString
               [ClickSave someProps 1 2 3; ClickDelete "2"] threeDesigns))).
Proof.
  apply (names_stay_trimmed Z_toString idsOnly EmptyString EmptyString
           EmptyString EmptyString EmptyString
           [ClickSave someProps 1 2 3; ClickDelete "2"] threeDesigns).
  repeat constructor; discriminate.
Defined.



(** The same design saved again under another id, a second later. *)
Lemma export_ignores_id_and_dates_witness :
  generateComponentCode Z_toString EmptyString EmptyString EmptyString
    EmptyString EmptyString (design "3" helloCircle)
  = generateComponentCode Z_toString EmptyString EmptyString EmptyString
      EmptyString EmptyString
      {| id := "4"; name := name (design "3" helloCircle); params := helloCircle;
         backgroundUrl := "bg.png"; createdAt := 2000; updatedAt := 3000 |}.
Proof.
  apply (export_ignores_id_and_dates Z_toString EmptyString EmptyString
           EmptyString EmptyString EmptyString); reflexivity.
Defined.

(** An empty storage. *)
Lemma load_nothing_stored_witness :
  loadEffect Json.parse ∅ noDesigns = (noDesigns, []).
Proof.
  apply (load_nothing_stored Json.parse ∅ noDesigns). left. reflexivity.
Defined.

End SessionProps.
